(** * Smart Real Estate Dashboard: the data pipeline of [app.py]

    The script loads a CSV into a pandas DataFrame, coerces five columns to
    numbers, drops the rows without a price or an area, derives three
    columns, filters the frame by the sidebar selections and renders
    aggregates and a comparison of selected listings.

    A DataFrame is modelled as the list of its rows, in index order.  A
    float64 cell is a primitive [float] (IEEE 754 binary64, as numpy has
    it); a missing number is NaN, as in pandas.  The loader is modelled
    twice: in [Typed] with the dtype of each numeric column (int64 or
    float64, decided over the whole column) and the index labels of the
    rows, and, for the rest of the pipeline, with the numeric columns held
    in float64, which is what [Typed] computes when the columns are float64
    ([load_data_float64]).  The cells of the text
    columns (ad_id, city, type, rent, furnished) are [string]s: the sidebar
    sorts the distinct values of each of them (lines 45-58), which Python
    refuses for a column that mixes text with blank cells, so the frames
    that reach the filter hold text there. *)

From Stdlib Require Import List String Ascii Bool Arith ZArith Lia.
From Stdlib Require Import Floats Sorted Permutation.
From Stdlib Require Reals Lra Field.
From Stdlib Require OrderedTypeEx.
Import ListNotations.

Local Open Scope string_scope.
Local Open Scope list_scope.

(** ** Missing values *)

(** [pd.isna] on a float64 cell: NaN is pandas' missing-value marker. *)
Definition isna (x : float) : bool := PrimFloat.is_nan x.

(** A signed zero of the binary64 format. *)
Definition sf_zero (x : spec_float) : Prop := exists s, x = S754_zero s.

(** ** Data model *)

(** A cell of a column as [pd.read_csv] leaves it: a number (a blank cell
    is NaN) or, in a column that holds text, a string. *)
Inductive cell : Type :=
  | CNum (x : float)
  | CStr (s : string).

(** A row of the frame returned by [pd.read_csv]. *)
Record RawRow : Type := mkRawRow {
  raw_ad_id : string;
  raw_city : string;
  raw_type : string;
  raw_rent : string;
  raw_furnished : string;
  raw_price : cell;
  raw_area : cell;
  raw_bedrooms : cell;
  raw_bathrooms : cell;
  raw_level : cell
}.

(** A row after the [num_cols] loop: the five columns are float64. *)
Record Row : Type := mkRow {
  ad_id : string;
  city : string;
  type_ : string;
  rent : string;
  furnished : string;
  price : float;
  area : float;
  bedrooms : float;
  bathrooms : float;
  level : float
}.

(** A row of the frame [load_data] returns: the CSV's columns and the three
    engineered ones. *)
Record Listing : Type := mkListing {
  cols :> Row;
  rooms : float;
  price_per_m2 : float;
  log_price : float
}.

Definition DataFrame : Type := list Listing.

(** ** Dataset loader ([load_data], lines 23-34) *)

(** The loader on numeric columns that are float64: the columns of a CSV
    in which a cell is blank, fractional or fails coercion.  Columns of
    integers are int64 in pandas; the loader with the dtypes follows. *)
Section Loader.

(** The two numeric routines of pandas and numpy that the loader calls:
    the string-to-number parser behind [pd.to_numeric] ([None] when the text
    is not a number) and [np.log1p]. *)
Variable str_to_float : string -> option float.
Variable log1p : float -> float.

(** [pd.to_numeric(df[c], errors="coerce")] on one cell. *)
Definition to_numeric (c : cell) : float :=
  match c with
  | CNum x => x
  | CStr s => match str_to_float s with
              | Some x => x
              | None => PrimFloat.nan
              end
  end.

(** A cell fails numeric coercion when it is text that does not parse. *)
Definition fails_coercion (c : cell) : Prop :=
  exists s, c = CStr s /\ str_to_float s = None.

(** The loop over [num_cols]. *)
Definition coerce_num_cols (r : RawRow) : Row :=
  {| ad_id := raw_ad_id r;
     city := raw_city r;
     type_ := raw_type r;
     rent := raw_rent r;
     furnished := raw_furnished r;
     price := to_numeric (raw_price r);
     area := to_numeric (raw_area r);
     bedrooms := to_numeric (raw_bedrooms r);
     bathrooms := to_numeric (raw_bathrooms r);
     level := to_numeric (raw_level r) |}.

(** [df.dropna(subset=["price", "area"])] keeps the rows where neither is NA. *)
Definition notna_price_area (r : Row) : bool :=
  negb (isna (price r)) && negb (isna (area r)).

Definition dropna_price_area (df : list Row) : list Row :=
  filter notna_price_area df.

(** Feature engineering, lines 31-33. *)
Definition feature_engineering (r : Row) : Listing :=
  {| cols := r;
     rooms := (bedrooms r + bathrooms r)%float;
     price_per_m2 := (price r / area r)%float;
     log_price := log1p (price r) |}.

Definition load_data (csv : list RawRow) : DataFrame :=
  map feature_engineering (dropna_price_area (map coerce_num_cols csv)).

End Loader.

(** ** The loader with the columns' dtypes *)

(** An integer as a float64: the nearest number, ties to even.  It is
    numpy's cast of an int64 to float64 and Python's comparison of an int
    with a float. *)
Definition float_of_int (z : Z) : float :=
  SF2Prim (binary_normalize prec emax z 0 false).

(** An int64 holds the integers from -2^63 to 2^63 - 1; its arithmetic
    wraps around. *)
Definition int64_range (z : Z) : Prop := (- 2 ^ 63 <= z < 2 ^ 63)%Z.

Definition wrap64 (z : Z) : Z := ((z + 2 ^ 63) mod 2 ^ 64 - 2 ^ 63)%Z.

(** [pd.read_csv] and [pd.to_numeric] decide the dtype of a column over all
    its cells: int64 when every cell is an integer, float64 as soon as one
    cell is blank, fractional or fails coercion.  This module models the
    loader with the dtypes and with the index labels that [dropna] keeps;
    [load_data] above is the case where the numeric columns are float64. *)
Module Typed.

(** A number in a numeric column. *)
Inductive num : Type :=
  | Int64 (z : Z)
  | Float64 (x : float).

Inductive dtype : Type := int64 | float64.

(** A cell as [pd.read_csv] leaves it: in an int64 column an integer, in a
    float64 column a float (NaN where the CSV is blank), in an object column
    the text (or NaN where the CSV is blank). *)
Inductive cell : Type :=
  | CInt (z : Z)
  | CFloat (x : float)
  | CStr (s : string).

Record RawRow : Type := mkRawRow {
  raw_ad_id : string;
  raw_city : string;
  raw_type : string;
  raw_rent : string;
  raw_furnished : string;
  raw_price : cell;
  raw_area : cell;
  raw_bedrooms : cell;
  raw_bathrooms : cell;
  raw_level : cell
}.

(** A row after the [num_cols] loop, with its index label. *)
Record Row : Type := mkRow {
  index : nat;
  ad_id : string;
  city : string;
  type_ : string;
  rent : string;
  furnished : string;
  price : num;
  area : num;
  bedrooms : num;
  bathrooms : num;
  level : num
}.

Record Listing : Type := mkListing {
  cols :> Row;
  rooms : num;
  price_per_m2 : float;
  log_price : float
}.

Definition is_int (n : num) : bool :=
  match n with Int64 _ => true | Float64 _ => false end.

(** The cast of a number to float64. *)
Definition to_float (n : num) : float :=
  match n with
  | Int64 z => float_of_int z
  | Float64 x => x
  end.

Definition astype (d : dtype) (n : num) : num :=
  match d with
  | int64 => n
  | float64 => Float64 (to_float n)
  end.

Definition notna (n : num) : bool :=
  match n with
  | Int64 _ => true
  | Float64 x => negb (isna x)
  end.

Section Loader.

(** The parser behind [pd.to_numeric]: an integer, a float, or [None] when
    the text is not a number; and [np.log1p]. *)
Variable str_to_num : string -> option num.
Variable log1p : float -> float.

(** One cell under [errors="coerce"], before the column's dtype is set. *)
Definition coerce (c : cell) : num :=
  match c with
  | CInt z => Int64 z
  | CFloat x => Float64 x
  | CStr s => match str_to_num s with
              | Some n => n
              | None => Float64 PrimFloat.nan
              end
  end.

(** The dtype [pd.to_numeric] gives the column. *)
Definition result_dtype (col : list cell) : dtype :=
  if forallb (fun c => is_int (coerce c)) col then int64 else float64.

(** [pd.to_numeric(df[c], errors="coerce")]: the cell [c] of column [col]. *)
Definition to_numeric (col : list cell) (c : cell) : num :=
  astype (result_dtype col) (coerce c).

(** The loop over [num_cols], seen from the row [r] that [pd.read_csv]
    labelled [i]. *)
Definition coerce_row (csv : list RawRow) (i : nat) (r : RawRow) : Row :=
  {| index := i;
     ad_id := raw_ad_id r;
     city := raw_city r;
     type_ := raw_type r;
     rent := raw_rent r;
     furnished := raw_furnished r;
     price := to_numeric (map raw_price csv) (raw_price r);
     area := to_numeric (map raw_area csv) (raw_area r);
     bedrooms := to_numeric (map raw_bedrooms csv) (raw_bedrooms r);
     bathrooms := to_numeric (map raw_bathrooms csv) (raw_bathrooms r);
     level := to_numeric (map raw_level csv) (raw_level r) |}.

(** The labels are the [RangeIndex] of [pd.read_csv]: 0, 1, 2, ... *)
Definition coerce_num_cols (csv : list RawRow) : list Row :=
  map (fun ir : nat * RawRow => coerce_row csv (fst ir) (snd ir))
    (combine (seq 0 (List.length csv)) csv).

(** [df.dropna(subset=["price", "area"], inplace=True)]: the rows that stay
    keep their labels. *)
Definition notna_price_area (r : Row) : bool :=
  notna (price r) && notna (area r).

Definition dropna_price_area (df : list Row) : list Row :=
  filter notna_price_area df.

(** [df["bedrooms"] + df["bathrooms"]]: int64 addition when both columns
    are int64, float64 addition otherwise. *)
Definition add (a b : num) : num :=
  match a, b with
  | Int64 x, Int64 y => Int64 (wrap64 (x + y))
  | _, _ => Float64 (to_float a + to_float b)
  end.

(** Feature engineering, lines 31-33; [/] and [np.log1p] give float64. *)
Definition feature_engineering (r : Row) : Listing :=
  {| cols := r;
     rooms := add (bedrooms r) (bathrooms r);
     price_per_m2 := (to_float (price r) / to_float (area r))%float;
     log_price := log1p (to_float (price r)) |}.

Definition load_data (csv : list RawRow) : list Listing :=
  map feature_engineering (dropna_price_area (coerce_num_cols csv)).

End Loader.

End Typed.

(** The typed frame read as a float64 one, and the typed CSV read as the
    cells of the float64 loader. *)
Definition untyped_cell (c : Typed.cell) : cell :=
  match c with
  | Typed.CInt z => CNum (float_of_int z)
  | Typed.CFloat x => CNum x
  | Typed.CStr s => CStr s
  end.

Definition untyped_raw (r : Typed.RawRow) : RawRow :=
  {| raw_ad_id := Typed.raw_ad_id r;
     raw_city := Typed.raw_city r;
     raw_type := Typed.raw_type r;
     raw_rent := Typed.raw_rent r;
     raw_furnished := Typed.raw_furnished r;
     raw_price := untyped_cell (Typed.raw_price r);
     raw_area := untyped_cell (Typed.raw_area r);
     raw_bedrooms := untyped_cell (Typed.raw_bedrooms r);
     raw_bathrooms := untyped_cell (Typed.raw_bathrooms r);
     raw_level := untyped_cell (Typed.raw_level r) |}.

Definition untyped (l : Typed.Listing) : Listing :=
  {| cols := {| ad_id := Typed.ad_id (Typed.cols l);
                city := Typed.city (Typed.cols l);
                type_ := Typed.type_ (Typed.cols l);
                rent := Typed.rent (Typed.cols l);
                furnished := Typed.furnished (Typed.cols l);
                price := Typed.to_float (Typed.price (Typed.cols l));
                area := Typed.to_float (Typed.area (Typed.cols l));
                bedrooms := Typed.to_float (Typed.bedrooms (Typed.cols l));
                bathrooms := Typed.to_float (Typed.bathrooms (Typed.cols l));
                level := Typed.to_float (Typed.level (Typed.cols l)) |};
     rooms := Typed.to_float (Typed.rooms l);
     price_per_m2 := Typed.price_per_m2 l;
     log_price := Typed.log_price l |}.

Definition untyped_parser (str_to_num : string -> option Typed.num)
  (s : string) : option float :=
  option_map Typed.to_float (str_to_num s).

(** ** Filter engine (lines 74-83) *)

(** The sidebar's selections. *)
Record FilterSpec : Type := mkFilterSpec {
  cities : list string;
  prop_types : list string;
  rent_opts : list string;
  furn_opts : list string;
  sel_price : float * float;
  sel_area : float * float;
  sel_bed : float * float;
  sel_bath : float * float
}.

(** [Series.isin(values)] on one text cell. *)
Definition isin (x : string) (values : list string) : bool :=
  existsb (String.eqb x) values.

(** [Series.between(left, right)], inclusive on both ends:
    [(self >= left) & (self <= right)]. *)
Definition between (x : float) (sel : float * float) : bool :=
  ((fst sel <=? x) && (x <=? snd sel))%float.

Definition filter_mask (S : FilterSpec) (r : Listing) : bool :=
  isin (city r) (cities S)
  && isin (type_ r) (prop_types S)
  && isin (rent r) (rent_opts S)
  && isin (furnished r) (furn_opts S)
  && between (price r) (sel_price S)
  && between (area r) (sel_area S)
  && between (bedrooms r) (sel_bed S)
  && between (bathrooms r) (sel_bath S).

Definition df_filtered (df : DataFrame) (S : FilterSpec) : DataFrame :=
  filter (filter_mask S) df.

(** A number lies within an inclusive range. *)
Definition in_range (x : float) (sel : float * float) : Prop :=
  (fst sel <=? x)%float = true /\ (x <=? snd sel)%float = true.

(** ** Aggregation layer *)

(** The numeric columns of the loaded frame. *)
Inductive num_col : Type :=
  | Price | Area | Bedrooms | Bathrooms | Level | Rooms | PricePerM2 | LogPrice.

Definition get (c : num_col) (r : Listing) : float :=
  match c with
  | Price => price r
  | Area => area r
  | Bedrooms => bedrooms r
  | Bathrooms => bathrooms r
  | Level => level r
  | Rooms => rooms r
  | PricePerM2 => price_per_m2 r
  | LogPrice => log_price r
  end.

(** [df[c]]: a column as the sequence of its values. *)
Definition column (c : num_col) (df : DataFrame) : list float := map (get c) df.

Definition ad_ids (df : DataFrame) : list string :=
  map (fun r : Listing => ad_id r) df.

Definition types (df : DataFrame) : list string :=
  map (fun r : Listing => type_ r) df.

(** An int64 count as a float64. *)
Definition float_of_nat (n : nat) : float :=
  PrimFloat.of_uint63 (Uint63.of_Z (Z.of_nat n)).

(** [Series.mean()] (pandas [nanops.nanmean], [skipna=True]): NaN cells
    count as 0 in the sum and are left out of the count;
    [the_sum / count if count > 0 else np.nan].  The sum is taken left to
    right, as numpy takes it on fewer than 8 values; on longer columns numpy
    adds pairwise, which can change the last bits of the sum.  What is
    proved of the mean below is about columns without a present value,
    where the order of the additions plays no part. *)
Definition fillna0 (x : float) : float :=
  if isna x then PrimFloat.zero else x.

Definition count_notna (xs : list float) : nat :=
  List.length (filter (fun x => negb (isna x)) xs).

Definition the_sum (xs : list float) : float :=
  fold_left PrimFloat.add (map fillna0 xs) PrimFloat.zero.

Definition nanmean (xs : list float) : float :=
  let count := count_notna xs in
  if (0 <? count)%nat then (the_sum xs / float_of_nat count)%float
  else PrimFloat.nan.

(** An insertion sort: each element moves left past the elements it is
    strictly less than.  The sorted prefix is kept with its right end
    first, which is where the scan starts.  It stands for the library sorts
    where the ascending order is all that is used; between elements that
    compare equal it keeps the input order, which numpy's quicksort does
    not promise. *)

Section InsertionSort.

Context {A : Type}.
Variable less : A -> A -> bool.

Fixpoint insert_right (vp : A) (prefix_rev : list A) : list A :=
  match prefix_rev with
  | [] => [vp]
  | vk :: rest =>
      if less vp vk then vk :: insert_right vp rest
      else vp :: prefix_rev
  end.

Definition insertion_sort (v : list A) : list A :=
  rev (fold_left (fun prefix_rev vp => insert_right vp prefix_rev) v []).

End InsertionSort.

(** [Series.median()] (pandas [nanops.nanmedian] over [np.nanmedian]): NaN
    when no value is left after the NaN cells are removed, else the middle
    of the sorted values, or the mean of the two middle ones. *)
Definition nanmedian (xs : list float) : float :=
  let x := filter (fun v => negb (isna v)) xs in
  let n := List.length x in
  if (n =? 0)%nat then PrimFloat.nan
  else
    let part := insertion_sort PrimFloat.ltb x in
    if Nat.odd n then nth (n / 2) part PrimFloat.nan
    else ((nth (n / 2 - 1) part PrimFloat.nan + nth (n / 2) part PrimFloat.nan)
          / 2)%float.

Definition mean (view : DataFrame) (field : num_col) : float :=
  nanmean (column field view).

Definition median (view : DataFrame) (field : num_col) : float :=
  nanmedian (column field view).

(** The KPI row, lines 98-101 (before formatting). *)
Definition total_listings (view : DataFrame) : nat := List.length view.
Definition average_price (view : DataFrame) : float := mean view Price.
Definition median_area (view : DataFrame) : float := median view Area.
Definition average_price_per_m2 (view : DataFrame) : float :=
  mean view PricePerM2.

(** *** Average price by property type (lines 115-117) *)

(** [groupby("type")] with the default [sort=True]: the distinct keys in
    ascending order. *)
Definition group_keys (view : DataFrame) : list string :=
  insertion_sort String.ltb (nodup string_dec (types view)).

(** The rows of one group, in the order of the view. *)
Definition group_rows (view : DataFrame) (k : string) : DataFrame :=
  filter (fun r : Listing => String.eqb (type_ r) k) view.

(** The accumulators of pandas' [group_mean] kernel for one group: the
    number of values seen, their running sum and the compensation of
    Kahan's summation. *)
Record kahan : Type := mkKahan {
  group_nobs : nat;
  sumx : float;
  compensation : float
}.

(** One value of the group: a NaN is skipped; a compensation that is NaN
    (after an infinite value) is put back to 0. *)
Definition group_mean_step (st : kahan) (val : float) : kahan :=
  if isna val then st
  else
    let y := (val - compensation st)%float in
    let t := (sumx st + y)%float in
    let c := (t - sumx st - y)%float in
    mkKahan (S (group_nobs st)) t (if isna c then PrimFloat.zero else c).

(** The mean of a group's values: NaN when none is present. *)
Definition grouped_mean (values : list float) : float :=
  let st :=
    fold_left group_mean_step values
      (mkKahan 0 PrimFloat.zero PrimFloat.zero) in
  if (group_nobs st =? 0)%nat then PrimFloat.nan
  else (sumx st / float_of_nat (group_nobs st))%float.

Definition group_mean (view : DataFrame) (k : string) : float :=
  grouped_mean (column Price (group_rows view k)).

(** A Series indexed by group key. *)
Definition Series : Type := list (string * float).

(** [groupby("type")["price"].mean()]: one (key, mean) entry per group, in
    key order. *)
Definition groupby_type_price_mean (view : DataFrame) : Series :=
  map (fun k => (k, group_mean view k)) (group_keys view).

(** The comparison of two entries by value. *)
Definition value_less (a b : string * float) : bool :=
  (snd a <? snd b)%float.

Section SortValues.

(** numpy's [argsort(kind="quicksort")] followed by [take]: the entries in
    ascending order of value.  The algorithm depends on the build of numpy
    (introsort, or a vectorised sort) and is not stable, so it is a
    parameter: all that is known of it is [sorts_ascending] below. *)
Variable quicksort : Series -> Series.

(** [Series.sort_values(ascending=False)] (pandas [nargsort], default
    [kind="quicksort"], [na_position="last"]): the entries without NaN are
    reversed, sorted ascending, and reversed again; the NaN entries
    follow. *)
Definition sort_values_desc (s : Series) : Series :=
  let non_nans := filter (fun kv => negb (isna (snd kv))) s in
  let nans := filter (fun kv => isna (snd kv)) s in
  rev (quicksort (rev non_nans)) ++ nans.

Definition type_price (view : DataFrame) : Series :=
  sort_values_desc (groupby_type_price_mean view).

End SortValues.

(** What numpy's sort guarantees on values without NaN: the same entries,
    in ascending order of value. *)
Definition sorts_ascending (quicksort : Series -> Series) : Prop :=
  forall s, Forall (fun kv => isna (snd kv) = false) s ->
    Permutation (quicksort s) s
    /\ StronglySorted (fun a b => (snd a <=? snd b)%float = true)
         (quicksort s).

(** A sort with that guarantee, to run [type_price] on examples. *)
Definition insertion_quicksort : Series -> Series :=
  insertion_sort value_less.

(** *** Correlation heatmap (lines 126-127) *)

Definition corr_cols : list num_col :=
  [LogPrice; Area; Bedrooms; Bathrooms; Rooms; PricePerM2].

(** The accumulators of pandas' [nancorr] for one pair of columns
    (Welford's method). *)
Record welford : Type := mkWelford {
  nobs : nat;
  meanx : float;
  meany : float;
  ssqdmx : float;
  ssqdmy : float;
  covxy : float
}.

Definition welford0 : welford :=
  mkWelford 0 PrimFloat.zero PrimFloat.zero PrimFloat.zero PrimFloat.zero
    PrimFloat.zero.

(** One row of the loop: rows where either value is not finite are skipped. *)
Definition welford_step (w : welford) (v : float * float) : welford :=
  let (vx, vy) := v in
  if PrimFloat.is_finite vx && PrimFloat.is_finite vy then
    let nobs' := S (nobs w) in
    let dx := (vx - meanx w)%float in
    let dy := (vy - meany w)%float in
    let meanx' := (meanx w + 1 / float_of_nat nobs' * dx)%float in
    let meany' := (meany w + 1 / float_of_nat nobs' * dy)%float in
    mkWelford nobs' meanx' meany'
      (ssqdmx w + (vx - meanx') * dx)%float
      (ssqdmy w + (vy - meany') * dy)%float
      (covxy w + (vx - meanx') * dy)%float
  else w.

(** The coefficient of one pair, with [minp = 1]. *)
Definition nancorr_pair (xs ys : list float) : float :=
  let w := fold_left welford_step (combine xs ys) welford0 in
  if (nobs w <? 1)%nat then PrimFloat.nan
  else
    let divisor := PrimFloat.sqrt (ssqdmx w * ssqdmy w)%float in
    if negb (divisor =? 0)%float then (covxy w / divisor)%float
    else PrimFloat.nan.

(** [nancorr(mat)]: for [xi] in [range(K)] and [yi] in [range(xi + 1)] the
    coefficient of columns [xi] and [yi] is stored at [result[xi, yi]] and
    at [result[yi, xi]]. *)
Definition nancorr_entry (mat : list (list float)) (a b : nat) : float :=
  let xi := Nat.max a b in
  let yi := Nat.min a b in
  nancorr_pair (nth xi mat []) (nth yi mat []).

Definition nancorr (mat : list (list float)) : list (list float) :=
  let K := List.length mat in
  map (fun a => map (fun b => nancorr_entry mat a b) (seq 0 K)) (seq 0 K).

(** [df_filtered[corr_cols].corr()]. *)
Definition corr (view : DataFrame) : list (list float) :=
  nancorr (map (fun c => column c view) corr_cols).

(** *** The same algorithm over any arithmetic *)

(** The operations [nancorr] uses, to run the algorithm in binary64, as the
    program does, and in exact real arithmetic. *)
Record arith (T : Type) : Type := mkArith {
  a_zero : T;
  a_one : T;
  a_add : T -> T -> T;
  a_sub : T -> T -> T;
  a_mul : T -> T -> T;
  a_div : T -> T -> T;
  a_sqrt : T -> T;
  a_of_nat : nat -> T;
  a_isfinite : T -> bool;
  a_nonzero : T -> bool;
  a_nan : T
}.

Arguments a_zero {T}.
Arguments a_one {T}.
Arguments a_add {T}.
Arguments a_sub {T}.
Arguments a_mul {T}.
Arguments a_div {T}.
Arguments a_sqrt {T}.
Arguments a_of_nat {T}.
Arguments a_isfinite {T}.
Arguments a_nonzero {T}.
Arguments a_nan {T}.

Record welford_over (T : Type) : Type := mkWelfordOver {
  w_nobs : nat;
  w_meanx : T;
  w_meany : T;
  w_ssqdmx : T;
  w_ssqdmy : T;
  w_covxy : T
}.

Arguments mkWelfordOver {T}.
Arguments w_nobs {T}.
Arguments w_meanx {T}.
Arguments w_meany {T}.
Arguments w_ssqdmx {T}.
Arguments w_ssqdmy {T}.
Arguments w_covxy {T}.

Section NancorrOver.

Context {T : Type}.
Variable A : arith T.

Definition welford0_over : welford_over T :=
  mkWelfordOver 0 (a_zero A) (a_zero A) (a_zero A) (a_zero A) (a_zero A).

Definition welford_step_over (w : welford_over T) (v : T * T)
  : welford_over T :=
  let (vx, vy) := v in
  if a_isfinite A vx && a_isfinite A vy then
    let nobs' := S (w_nobs w) in
    let dx := a_sub A vx (w_meanx w) in
    let dy := a_sub A vy (w_meany w) in
    let meanx' :=
      a_add A (w_meanx w)
        (a_mul A (a_div A (a_one A) (a_of_nat A nobs')) dx) in
    let meany' :=
      a_add A (w_meany w)
        (a_mul A (a_div A (a_one A) (a_of_nat A nobs')) dy) in
    mkWelfordOver nobs' meanx' meany'
      (a_add A (w_ssqdmx w) (a_mul A (a_sub A vx meanx') dx))
      (a_add A (w_ssqdmy w) (a_mul A (a_sub A vy meany') dy))
      (a_add A (w_covxy w) (a_mul A (a_sub A vx meanx') dy))
  else w.

Definition nancorr_pair_over (xs ys : list T) : T :=
  let w := fold_left welford_step_over (combine xs ys) welford0_over in
  if (w_nobs w <? 1)%nat then a_nan A
  else
    let divisor := a_sqrt A (a_mul A (w_ssqdmx w) (w_ssqdmy w)) in
    if a_nonzero A divisor then a_div A (w_covxy w) divisor else a_nan A.

End NancorrOver.

(** The accumulators of the program, read as accumulators over binary64. *)
Definition to_over (w : welford) : welford_over float :=
  mkWelfordOver (nobs w) (meanx w) (meany w) (ssqdmx w) (ssqdmy w) (covxy w).

(** The arithmetic of the program: binary64. *)
Definition binary64 : arith float :=
  {| a_zero := PrimFloat.zero;
     a_one := PrimFloat.one;
     a_add := PrimFloat.add;
     a_sub := PrimFloat.sub;
     a_mul := PrimFloat.mul;
     a_div := PrimFloat.div;
     a_sqrt := PrimFloat.sqrt;
     a_of_nat := float_of_nat;
     a_isfinite := PrimFloat.is_finite;
     a_nonzero := fun x => negb (x =? 0)%float;
     a_nan := PrimFloat.nan |}.

(** Exact real arithmetic: the real number a float64 stands for, the
    natural logarithm that [np.log1p] approximates, and Pearson's correlation
    coefficient of a sample of pairs of real numbers. *)
Module Exact.

Import Reals.
Local Open Scope R_scope.

(** The value of a finite float64: (-1)^s * m * 2^e. *)
Definition float_to_R (x : float) : R :=
  match Prim2SF x with
  | S754_finite s m e => IZR (cond_Zopp s (Z.pos m)) * powerRZ 2 e
  | _ => 0
  end.

Definition gt_minus_one (x : float) : Prop := -1 < float_to_R x.

(** [y] is ln(1 + x) up to the relative error [eps]. *)
Definition ln1p_error_le (eps : R) (x y : float) : Prop :=
  Rabs (float_to_R y - ln (1 + float_to_R x))
  <= eps * Rabs (ln (1 + float_to_R x)).

(** What a routine for log1p promises: on every finite x > -1 the natural
    logarithm of 1 + x, up to the relative error [eps]. *)
Definition log1p_within (eps : R) (log1p : float -> float) : Prop :=
  forall x, PrimFloat.is_finite x = true -> gt_minus_one x ->
            ln1p_error_le eps x (log1p x).

Definition exact_real : arith R :=
  {| a_zero := 0;
     a_one := 1;
     a_add := Rplus;
     a_sub := Rminus;
     a_mul := Rmult;
     a_div := Rdiv;
     a_sqrt := sqrt;
     a_of_nat := INR;
     a_isfinite := fun _ => true;
     a_nonzero := fun x => if Req_dec_T x 0 then false else true;
     a_nan := 0 |}.

Definition rsum (f : R * R -> R) (pairs : list (R * R)) : R :=
  fold_right (fun p s => f p + s) 0 pairs.

Definition rmean (f : R * R -> R) (pairs : list (R * R)) : R :=
  rsum f pairs / INR (List.length pairs).

(** r = sum (x - mx)(y - my) / sqrt (sum (x - mx)^2 * sum (y - my)^2). *)
Definition pearson_r (pairs : list (R * R)) : R :=
  let mx := rmean fst pairs in
  let my := rmean snd pairs in
  rsum (fun p => (fst p - mx) * (snd p - my)) pairs
  / sqrt (rsum (fun p => (fst p - mx) * (fst p - mx)) pairs
          * rsum (fun p => (snd p - my) * (snd p - my)) pairs).

(** The coefficient is defined when neither variable is constant. *)
Definition pearson_defined (pairs : list (R * R)) : Prop :=
  let mx := rmean fst pairs in
  let my := rmean snd pairs in
  rsum (fun p => (fst p - mx) * (fst p - mx)) pairs
  * rsum (fun p => (snd p - my) * (snd p - my)) pairs <> 0.

(** Four points, for which r = 4/5. *)
Definition sample_pairs : list (R * R) := [(1, 1); (2, 3); (3, 2); (4, 4)].

(** The accumulators hold the sums of the rows seen so far. *)
Record welford_inv (pre : list (R * R)) (w : welford_over R) : Prop := {
  inv_nobs : w_nobs w = List.length pre;
  inv_meanx : INR (List.length pre) * w_meanx w = rsum fst pre;
  inv_meany : INR (List.length pre) * w_meany w = rsum snd pre;
  inv_ssqx :
    w_ssqdmx w
    = rsum (fun p => fst p * fst p) pre
      - INR (List.length pre) * w_meanx w * w_meanx w;
  inv_ssqy :
    w_ssqdmy w
    = rsum (fun p => snd p * snd p) pre
      - INR (List.length pre) * w_meany w * w_meany w;
  inv_cov :
    w_covxy w
    = rsum (fun p => fst p * snd p) pre
      - INR (List.length pre) * w_meanx w * w_meany w
}.

End Exact.

(** ** Comparison selector (lines 140-160) *)

(** [df_filtered[df_filtered["ad_id"].isin(compare_ids)]]. *)
Definition comp_df (view : DataFrame) (compare_ids : list string) : DataFrame :=
  filter (fun r : Listing => isin (ad_id r) compare_ids) view.

Definition radar_cols : list num_col :=
  [Price; Area; Bedrooms; Bathrooms; Rooms].

Definition radar_labels : list string :=
  ["price"; "area"; "bedrooms"; "bathrooms"; "rooms"].

(** One [go.Scatterpolar] trace. *)
Record Scatterpolar : Type := mkScatterpolar {
  r : list float;
  theta : list string;
  name : string
}.

(** The trace of one row, named [row["ad_id"][:12]].  The ad_id column
    holds text here (on a column of integers the slice raises TypeError),
    and [substring] cuts it at 12 one-byte characters. *)
Definition trace_of (row : Listing) : Scatterpolar :=
  {| r := map (fun c => get c row) radar_cols;
     theta := radar_labels;
     name := substring 0 12 (ad_id row) |}.

(** What the Compare tab shows. *)
Inductive CompareTab : Type :=
  | Info (message : string)
  | Comparison (table : DataFrame) (radar : option (list Scatterpolar)).

Definition compare_tab (view : DataFrame) (compare_ids : list string)
  : CompareTab :=
  if (List.length compare_ids <? 2)%nat then
    Info "Select at least two Ad IDs from the sidebar to compare."
  else
    let comp := comp_df view compare_ids in
    Comparison comp
      (if (List.length compare_ids <=? 5)%nat then Some (map trace_of comp)
       else None).

(** The contract of the comparison selector as the specification words it:
    each id is resolved in the order given, and an id that is not in the
    view is skipped. *)
Definition resolveComparison_spec (view : DataFrame) (ids : list string)
  : DataFrame :=
  flat_map
    (fun i => match find (fun r : Listing => String.eqb (ad_id r) i) view with
              | Some r => [r]
              | None => []
              end)
    ids.

(** The contract of [groupMean] as the specification words it: the groups
    in the order they are first encountered in the view, sorted descending
    by mean with a sort that keeps that order between equal means. *)
Fixpoint first_seen (seen keys : list string) : list string :=
  match keys with
  | [] => []
  | k :: ks =>
      if isin k seen then first_seen seen ks
      else k :: first_seen (k :: seen) ks
  end.

Fixpoint insert_desc (kv : string * float) (sorted : Series) : Series :=
  match sorted with
  | [] => [kv]
  | h :: t =>
      if (snd h <? snd kv)%float then kv :: sorted
      else h :: insert_desc kv t
  end.

Definition groupMean_spec (view : DataFrame) : Series :=
  fold_left (fun acc kv => insert_desc kv acc)
    (map (fun k => (k, group_mean view k)) (first_seen [] (types view)))
    [].

(** Sorted descending by value, the entries without a value last. *)
Definition sorted_desc_na_last (s : Series) : Prop :=
  exists srt nans,
    s = srt ++ nans
    /\ StronglySorted (fun a b => (snd b <=? snd a)%float = true) srt
    /\ Forall (fun kv => isna (snd kv) = false) srt
    /\ Forall (fun kv => isna (snd kv) = true) nans.

(** A list that keeps some elements of another, in the same order. *)
Inductive Subseq {A : Type} : list A -> list A -> Prop :=
  | Subseq_nil : Subseq [] []
  | Subseq_skip (x : A) (l1 l2 : list A) : Subseq l1 l2 -> Subseq l1 (x :: l2)
  | Subseq_keep (x : A) (l1 l2 : list A) :
      Subseq l1 l2 -> Subseq (x :: l1) (x :: l2).

(** ** Sample data *)

(** A parser of unsigned decimal integers and the identity in place of
    [np.log1p] instantiate the loader on concrete frames; no property below
    depends on the choice. *)
Definition digit_of (c : ascii) : option float :=
  let n := nat_of_ascii c in
  if (48 <=? n)%nat && (n <=? 57)%nat then Some (float_of_nat (n - 48))
  else None.

Fixpoint parse_digits (acc : float) (s : string) : option float :=
  match s with
  | EmptyString => Some acc
  | String c s' =>
      match digit_of c with
      | Some d => parse_digits (acc * 10 + d)%float s'
      | None => None
      end
  end.

Definition parse_unsigned (s : string) : option float :=
  match s with
  | EmptyString => None
  | _ => parse_digits PrimFloat.zero s
  end.

Definition sample_log1p (x : float) : float := x.

Definition sample_load : list RawRow -> DataFrame :=
  load_data parse_unsigned sample_log1p.

Definition raw (id ty : string) (p a bed bath lvl : cell) : RawRow :=
  mkRawRow id "Cairo" ty "sale" "no" p a bed bath lvl.

Definition listing (id ty : string) (p a bed bath : float) : Listing :=
  feature_engineering sample_log1p
    (mkRow id "Cairo" ty "sale" "no" p a bed bath 1%float).

(** The table of the specification's examples. *)
Definition listing_A : Listing := listing "A" "villa" 100 10 2 1.
Definition listing_B : Listing := listing "B" "apartment" 200 20 3 2.
Definition sample_view : DataFrame := [listing_A; listing_B].

Definition raw_A : RawRow :=
  raw "A" "villa" (CStr "100") (CNum 10) (CNum 2) (CNum 1) (CNum 1).

(** A row whose level is text that is not a number. *)
Definition raw_bad_level : RawRow :=
  raw "L" "villa" (CNum 100) (CNum 10) (CNum 2) (CNum 1) (CStr "ground").

(** A row whose bedrooms is text that is not a number. *)
Definition raw_bad_bedrooms : RawRow :=
  raw "M" "villa" (CNum 100) (CNum 10) (CStr "two") (CNum 1) (CNum 3).

(** Two types with the same mean price, the villa listed first. *)
Definition tie_view : DataFrame :=
  [listing "V" "villa" 100 10 2 1; listing "W" "apartment" 100 20 3 2].

(** *** Samples for the loader with dtypes *)

(** A parser of unsigned decimal integers: an int64 when the number fits,
    a float64 otherwise. *)
Fixpoint parse_int_digits (acc : Z) (s : string) : option Z :=
  match s with
  | EmptyString => Some acc
  | String c s' =>
      let n := nat_of_ascii c in
      if (48 <=? n)%nat && (n <=? 57)%nat
      then parse_int_digits (acc * 10 + Z.of_nat (n - 48)) s'
      else None
  end.

Definition parse_int (s : string) : option Typed.num :=
  match s with
  | EmptyString => None
  | _ =>
      match parse_int_digits 0 s with
      | Some z =>
          Some (if (z <? 2 ^ 63)%Z then Typed.Int64 z
                else Typed.Float64 (float_of_int z))
      | None => None
      end
  end.

Definition typed_load : list Typed.RawRow -> list Typed.Listing :=
  Typed.load_data parse_int sample_log1p.

Definition typed_raw (id ty : string) (p a bed bath lvl : Typed.cell)
  : Typed.RawRow :=
  Typed.mkRawRow id "Cairo" ty "sale" "no" p a bed bath lvl.

(** A CSV whose price column holds a cell that is not a number, so that
    [pd.read_csv] leaves the column as text, and whose area, bedrooms and
    bathrooms columns hold integers only. *)
Definition typed_csv : list Typed.RawRow :=
  [ typed_raw "A" "villa" (Typed.CStr "100") (Typed.CInt 10)
      (Typed.CInt 2) (Typed.CInt 1) (Typed.CFloat 1);
    typed_raw "N" "villa" (Typed.CStr "call") (Typed.CInt 15)
      (Typed.CInt 4) (Typed.CInt 2) (Typed.CFloat PrimFloat.nan);
    typed_raw "B" "apartment" (Typed.CStr "200") (Typed.CInt 20)
      (Typed.CInt 3) (Typed.CInt 2) (Typed.CFloat 2) ].

(** The row of [typed_csv] labelled 2, as loaded. *)
Definition typed_listing_B : Typed.Listing :=
  Typed.mkListing
    (Typed.mkRow 2 "B" "Cairo" "apartment" "sale" "no"
       (Typed.Float64 200) (Typed.Int64 20) (Typed.Int64 3) (Typed.Int64 2)
       (Typed.Float64 2))
    (Typed.Int64 5) 10 (sample_log1p 200).

(** A CSV of integers whose bedrooms and bathrooms are 2^62 each. *)
Definition typed_csv_big : list Typed.RawRow :=
  [ typed_raw "H" "hotel" (Typed.CInt 100) (Typed.CInt 10)
      (Typed.CInt (2 ^ 62)) (Typed.CInt (2 ^ 62)) (Typed.CInt 1) ].

(** ** Sidebar widgets (lines 44-71) *)

(** The text columns. *)
Inductive text_col : Type :=
  | City | PropType | Rent | Furnished.

Definition text (c : text_col) (r : Listing) : string :=
  match c with
  | City => city r
  | PropType => type_ r
  | Rent => rent r
  | Furnished => furnished r
  end.

Definition text_column (c : text_col) (df : DataFrame) : list string :=
  map (text c) df.

(** [Series.unique()]: the distinct values, in order of first appearance. *)
Definition unique (values : list string) : list string :=
  first_seen [] values.

(** Python's [sorted] on a list of [str]: equal strings are the same
    string, so the ascending list is the same whatever the algorithm. *)
Definition sorted (values : list string) : list string :=
  insertion_sort String.ltb values.

(** [sorted(df[c].unique())]: the options of a multiselect, which are its
    default as well. *)
Definition options (c : text_col) (df : DataFrame) : list string :=
  sorted (unique (text_column c df)).

(** [Series.min()] and [Series.max()] (pandas [nanops.nanmin], [nanmax]):
    NaN cells are replaced by +inf (-inf), numpy reduces the array with
    [(a < b) ? a : b] ([(a > b) ? a : b]), and the result is NaN when no
    cell holds a number. *)
Definition np_min (values : list float) : float :=
  match values with
  | [] => PrimFloat.nan
  | a :: rest =>
      fold_left (fun acc v => if (acc <? v)%float then acc else v) rest a
  end.

Definition np_max (values : list float) : float :=
  match values with
  | [] => PrimFloat.nan
  | a :: rest =>
      fold_left (fun acc v => if (v <? acc)%float then acc else v) rest a
  end.

Definition series_min (xs : list float) : float :=
  if (0 <? count_notna xs)%nat then
    np_min (map (fun x => if isna x then PrimFloat.infinity else x) xs)
  else PrimFloat.nan.

Definition series_max (xs : list float) : float :=
  if (0 <? count_notna xs)%nat then
    np_max (map (fun x => if isna x then PrimFloat.neg_infinity else x) xs)
  else PrimFloat.nan.

(** Python's [int(x)] on a float: the integer part, toward zero; NaN
    raises ValueError and an infinity raises OverflowError ([None]). *)
Definition py_int (x : float) : option Z :=
  match Prim2SF x with
  | S754_zero _ => Some 0%Z
  | S754_finite s m e =>
      Some (cond_Zopp s
              (if (0 <=? e)%Z then Z.shiftl (Zpos m) e
               else Z.shiftr (Zpos m) (- e)))
  | S754_infinity _ | S754_nan => None
  end.

(** The defaults the script hands to the widgets: every option of the four
    multiselects, the integer parts of the least and greatest price and
    area, the least and greatest bedrooms and bathrooms.  [None] when an
    [int(...)] of lines 61 and 64 raises. *)
Definition default_selection (df : DataFrame) : option FilterSpec :=
  match py_int (series_min (column Price df)),
        py_int (series_max (column Price df)),
        py_int (series_min (column Area df)),
        py_int (series_max (column Area df)) with
  | Some price_min, Some price_max, Some area_min, Some area_max =>
      Some {| cities := options City df;
              prop_types := options PropType df;
              rent_opts := options Rent df;
              furn_opts := options Furnished df;
              sel_price := (float_of_int price_min, float_of_int price_max);
              sel_area := (float_of_int area_min, float_of_int area_max);
              sel_bed := (series_min (column Bedrooms df),
                          series_max (column Bedrooms df));
              sel_bath := (series_min (column Bathrooms df),
                           series_max (column Bathrooms df)) |}
  | _, _, _, _ => None
  end.

(** The options of the comparison multiselect (line 87). *)
Definition compare_options (view : DataFrame) : list string :=
  unique (ad_ids view).

(** ** Rankings (lines 121-122 and 137) *)

(** [DataFrame.head(n)]. *)
Definition head {A : Type} (n : nat) (rows : list A) : list A := firstn n rows.

(** The sort of [sort_values(..., ascending=False)] on any rows, by a
    float64 key ([nargsort], NaN keys last).  An insertion sort stands for
    numpy's quicksort, which is not stable: the order of rows with equal
    keys is not part of what is proved of the result. *)
Definition sort_desc_by {A : Type} (key : A -> float) (rows : list A)
  : list A :=
  let non_nans := filter (fun x => negb (isna (key x))) rows in
  let nans := filter (fun x => isna (key x)) rows in
  rev (insertion_sort (fun a b => (key a <? key b)%float) (rev non_nans))
  ++ nans.

(** [df_filtered.sort_values("price", ascending=False).head(20)]. *)
Definition most_expensive (view : DataFrame) : DataFrame :=
  head 20 (sort_desc_by (fun r : Listing => price r) view).

(** [Series.value_counts()]: the count of each distinct value, sorted
    descending by count (an int64 key, so no NaN).  The order of values
    with equal counts is not part of what is proved of the result. *)
Definition count_of (v : string) (values : list string) : nat :=
  List.length (filter (String.eqb v) values).

Definition value_counts (values : list string) : list (string * nat) :=
  let counts := map (fun v => (v, count_of v values)) (unique values) in
  rev (insertion_sort (fun a b => (snd a <? snd b)%nat) (rev counts)).

(** [df_filtered["city"].value_counts().head(15).reset_index()]. *)
Definition top_cities (view : DataFrame) : list (string * nat) :=
  head 15 (value_counts (text_column City view)).

(** Descending by key, the rows without a key last. *)
Definition desc_na_last {A : Type} (key : A -> float) (a b : A) : Prop :=
  isna (key b) = true
  \/ (isna (key a) = false /\ (key b <=? key a)%float = true).

(** ** Notions used to state the further properties *)

(** The identifying and text columns of a row, as read and as loaded. *)
Definition raw_texts (rr : RawRow)
  : string * string * string * string * string :=
  (raw_ad_id rr, raw_city rr, raw_type rr, raw_rent rr, raw_furnished rr).

Definition texts (l : Listing) : string * string * string * string * string :=
  (ad_id l, city l, type_ l, rent l, furnished l).

(** One range lies within another. *)
Definition range_within (inner outer : float * float) : Prop :=
  (fst outer <=? fst inner)%float = true
  /\ (snd inner <=? snd outer)%float = true.

(** A selection that allows no more than another: smaller sets of values,
    ranges within the other's. *)
Definition narrower (S S' : FilterSpec) : Prop :=
  incl (cities S) (cities S') /\ incl (prop_types S) (prop_types S')
  /\ incl (rent_opts S) (rent_opts S') /\ incl (furn_opts S) (furn_opts S')
  /\ range_within (sel_price S) (sel_price S')
  /\ range_within (sel_area S) (sel_area S')
  /\ range_within (sel_bed S) (sel_bed S')
  /\ range_within (sel_bath S) (sel_bath S').

(** Both values of a pair of cells are finite numbers. *)
Definition both_finite (v : float * float) : bool :=
  PrimFloat.is_finite (fst v) && PrimFloat.is_finite (snd v).

(** The rows of a view in which two columns both hold finite numbers. *)
Definition finite_rows (ca cb : num_col) (view : DataFrame) : DataFrame :=
  filter (fun row => both_finite (get ca row, get cb row)) view.

(** The values of a column that are present. *)
Definition present (xs : list float) : list float :=
  filter (fun v => negb (isna v)) xs.

(** ** More sample data *)

(** A price with a fractional part above every other. *)
Definition listing_half : Listing := listing "H" "villa" 100.5 10 2 1.
Definition listing_low : Listing := listing "Z" "villa" 50 5 1 1.
Definition half_view : DataFrame := [listing_half; listing_low].

(** A row with a zero area. *)
Definition raw_zero_area : RawRow :=
  raw "O" "villa" (CNum 100) (CNum 0) (CNum 2) (CNum 1) (CNum 1).

(** Two selections over the sample table, the second within the first. *)
Definition select_all : FilterSpec :=
  {| cities := ["Cairo"];
     prop_types := ["apartment"; "villa"];
     rent_opts := ["sale"];
     furn_opts := ["no"];
     sel_price := (100, 200)%float;
     sel_area := (10, 20)%float;
     sel_bed := (2, 3)%float;
     sel_bath := (1, 2)%float |}.

Definition select_villas : FilterSpec :=
  {| cities := ["Cairo"];
     prop_types := ["villa"];
     rent_opts := ["sale"];
     furn_opts := ["no"];
     sel_price := (100, 100)%float;
     sel_area := (10, 20)%float;
     sel_bed := (2, 3)%float;
     sel_bath := (1, 2)%float |}.

(** A selection with no city picked. *)
Definition select_no_city : FilterSpec :=
  {| cities := [];
     prop_types := ["apartment"; "villa"];
     rent_opts := ["sale"];
     furn_opts := ["no"];
     sel_price := (100, 200)%float;
     sel_area := (10, 20)%float;
     sel_bed := (2, 3)%float;
     sel_bath := (1, 2)%float |}.

(** A listing without a level, and one with neither bedrooms nor level. *)
Definition listing_no_level : Listing :=
  feature_engineering sample_log1p
    (mkRow "G" "Cairo" "villa" "sale" "no" 100 10 2 1 PrimFloat.nan).

Definition listing_no_bedrooms : Listing :=
  feature_engineering sample_log1p
    (mkRow "K" "Cairo" "villa" "sale" "no" 300 30 PrimFloat.nan 1
       PrimFloat.nan).

(** * Properties *)

(** ** Binary64 facts *)

Module F64.

Local Open Scope float_scope.

Lemma isna_spec (x : float) : isna x = true <-> Prim2SF x = S754_nan.
Proof.
  unfold isna, PrimFloat.is_nan. rewrite eqb_spec.
  split.
  - destruct (Prim2SF x) as [s|s| |s m e] eqn:E; trivial; intros H; exfalso.
    + destruct s; discriminate H.
    + destruct s; discriminate H.
    + unfold SFeqb, SFcompare in H.
      destruct s; rewrite Z.compare_refl, Pos.compare_cont_refl in H;
        discriminate H.
  - intros ->. reflexivity.
Qed.

Lemma notna_spec (x : float) : isna x = false <-> Prim2SF x <> S754_nan.
Proof.
  rewrite <- isna_spec. destruct (isna x); split; congruence.
Qed.

Lemma isna_eq (x : float) : isna x = true -> x = nan.
Proof.
  intros H. apply Prim2SF_inj. apply isna_spec in H. rewrite H. reflexivity.
Qed.

(** The cases of a binary64 number: a zero, an infinity, NaN or finite. *)
Ltac sf_cases x := destruct (Prim2SF x) as [[|]|[|]| |? ? ?].

Lemma add_nan_l (y : float) : nan + y = nan.
Proof. apply Prim2SF_inj. rewrite add_spec. reflexivity. Qed.

Lemma add_nan_r (x : float) : x + nan = nan.
Proof.
  apply Prim2SF_inj. rewrite add_spec.
  change (Prim2SF nan) with S754_nan.
  sf_cases x; reflexivity.
Qed.

(** *** The order on the numbers *)

Lemma SFcompare_antisym (x y : spec_float) :
  SFcompare y x = option_map CompOpp (SFcompare x y).
Proof.
  destruct x as [[|]|[|]| |[|] m e], y as [[|]|[|]| |[|] m' e'];
    try reflexivity;
    simpl; rewrite (Z.compare_antisym e e');
    destruct (e ?= e')%Z; simpl; try reflexivity;
    rewrite (Pos.compare_cont_antisym m m' Eq); simpl;
    destruct (Pos.compare_cont Eq m m'); reflexivity.
Qed.

Lemma SFcompare_notnan (x y : spec_float) :
  x <> S754_nan -> y <> S754_nan -> SFcompare x y <> None.
Proof.
  destruct x as [[|]|[|]| |[|] m e], y as [[|]|[|]| |[|] m' e'];
    simpl; congruence.
Qed.

Lemma SFleb_trans (x y z : spec_float) :
  SFleb x y = true -> SFleb y z = true -> SFleb x z = true.
Proof.
  unfold SFleb.
  destruct x as [[|]|[|]| |[|] m e], y as [[|]|[|]| |[|] m' e'],
    z as [[|]|[|]| |[|] m'' e'']; simpl; try reflexivity; try discriminate;
  change (Pos.compare_cont Eq) with Pos.compare;
  destruct (Z.compare_spec e e'); try discriminate;
  destruct (Z.compare_spec e' e''); try discriminate;
  destruct (Z.compare_spec e e''); try lia; try reflexivity; subst;
  try (destruct (Pos.compare_spec m m'); try discriminate);
  try (destruct (Pos.compare_spec m' m''); try discriminate);
  try (destruct (Pos.compare_spec m m''); try lia; try reflexivity);
  simpl; intros; try reflexivity; try discriminate; try lia.
Qed.

Lemma leb_trans (x y z : float) :
  (x <=? y) = true -> (y <=? z) = true -> (x <=? z) = true.
Proof. rewrite !leb_spec. apply SFleb_trans. Qed.

Lemma ltb_asym (x y : float) : (x <? y) = true -> (y <? x) = false.
Proof.
  rewrite !ltb_spec. unfold SFltb.
  rewrite (SFcompare_antisym (Prim2SF x) (Prim2SF y)).
  destruct (SFcompare (Prim2SF x) (Prim2SF y)) as [[| |]|]; simpl; congruence.
Qed.

Lemma ltb_false_leb (x y : float) :
  isna x = false -> isna y = false -> (x <? y) = false -> (y <=? x) = true.
Proof.
  rewrite !notna_spec, ltb_spec, leb_spec. unfold SFltb, SFleb.
  intros Hx Hy. pose proof (SFcompare_notnan _ _ Hx Hy) as Hc.
  rewrite (SFcompare_antisym (Prim2SF x) (Prim2SF y)).
  destruct (SFcompare (Prim2SF x) (Prim2SF y)) as [[| |]|]; simpl; congruence.
Qed.

Lemma leb_ltb_false (x y : float) : (y <=? x) = true -> (x <? y) = false.
Proof.
  rewrite ltb_spec, leb_spec. unfold SFltb, SFleb.
  rewrite (SFcompare_antisym (Prim2SF x) (Prim2SF y)).
  destruct (SFcompare (Prim2SF x) (Prim2SF y)) as [[| |]|]; simpl; congruence.
Qed.

Lemma ltb_false_trans (x y z : float) :
  isna x = false -> isna y = false -> isna z = false ->
  (x <? y) = false -> (y <? z) = false -> (x <? z) = false.
Proof.
  intros Hx Hy Hz Hxy Hyz. apply leb_ltb_false.
  apply (leb_trans z y x); apply ltb_false_leb; assumption.
Qed.

Lemma eqb_leb (x y : float) :
  (x =? y) = true -> (x <=? y) = true /\ (y <=? x) = true.
Proof.
  rewrite eqb_spec, !leb_spec. unfold SFeqb, SFleb.
  rewrite (SFcompare_antisym (Prim2SF x) (Prim2SF y)).
  destruct (SFcompare (Prim2SF x) (Prim2SF y)) as [[| |]|]; simpl;
    intros H; try discriminate H; split; reflexivity.
Qed.

(** Two numbers equal to a third are not ordered strictly. *)
Lemma eqb_tie (v x y : float) :
  (x =? v) = true -> (y =? v) = true -> (x <? y) = false.
Proof.
  intros Hx Hy. apply eqb_leb in Hx, Hy. apply leb_ltb_false.
  apply (leb_trans y v x); tauto.
Qed.

Lemma eqb_nan_l (v : float) : (nan =? v) = false.
Proof. rewrite eqb_spec. reflexivity. Qed.

(** *** Exact operations of the first Welford step *)

Lemma iter_shr_1_exact (n : nat) (m : positive) :
  Nat.iter n shr_1
    {| shr_m := Zpos (Nat.iter n xO m); shr_r := false; shr_s := false |}
  = {| shr_m := Zpos m; shr_r := false; shr_s := false |}.
Proof.
  induction n as [|n IH]; [reflexivity|].
  rewrite Nat.iter_succ_r. simpl. exact IH.
Qed.

Lemma digits2_pos_iter_xO (n : nat) (m : positive) :
  Zpos (digits2_pos (Nat.iter n xO m)) = (Zpos (digits2_pos m) + Z.of_nat n)%Z.
Proof.
  induction n as [|n IH]; [simpl; lia|].
  simpl Nat.iter. simpl digits2_pos. lia.
Qed.

(** [1 * x] is [x] for a finite binary64 [x]: the product's mantissa is
    [2^52 * m], and rounding shifts the 52 zero bits out again. *)
Lemma SF64mul_one_l (s : bool) (m : positive) (e : Z) :
  valid_binary (S754_finite s m e) = true ->
  SF64mul (Prim2SF 1) (S754_finite s m e) = S754_finite s m e.
Proof.
  intros V. simpl in V. unfold bounded in V.
  apply andb_prop in V. destruct V as [C B].
  unfold canonical_mantissa in C. apply Z.eqb_eq in C.
  change (Prim2SF 1) with (S754_finite false 4503599627370496 (-52)).
  unfold SF64mul, SFmul. simpl xorb.
  change (4503599627370496 * m)%positive with (Nat.iter 52 xO m).
  unfold binary_round_aux.
  assert (E1 : shr_fexp prec emax (Z.pos (Nat.iter 52 xO m)) (-52 + e) loc_Exact
               = ({| shr_m := Zpos m; shr_r := false; shr_s := false |}, e)).
  { unfold shr_fexp. unfold Zdigits2. rewrite digits2_pos_iter_xO.
    replace (Z.pos (digits2_pos m) + Z.of_nat 52 + (-52 + e))%Z
      with (Z.pos (digits2_pos m) + e)%Z by lia.
    rewrite C. replace (e - (-52 + e))%Z with 52%Z by lia.
    unfold shr, shr_record_of_loc.
    change (iter_pos shr_1 52 ?x) with (Nat.iter 52 shr_1 x).
    rewrite iter_shr_1_exact. f_equal. lia. }
  rewrite E1. cbn [shr_m loc_of_shr_record round_nearest_even].
  unfold shr_fexp, Zdigits2. rewrite C, Z.sub_diag.
  cbn [shr shr_record_of_loc shr_m].
  rewrite B. reflexivity.
Qed.

Lemma SF64sub_diag (s : bool) (m : positive) (e : Z) :
  SF64sub (S754_finite s m e) (S754_finite s m e) = S754_zero false.
Proof.
  unfold SF64sub, SFsub. rewrite Z.sub_diag. reflexivity.
Qed.

Lemma is_finite_cases (x : float) :
  PrimFloat.is_finite x = true ->
  sf_zero (Prim2SF x) \/ exists s m e, Prim2SF x = S754_finite s m e.
Proof.
  unfold PrimFloat.is_finite, PrimFloat.is_nan, PrimFloat.is_infinity.
  rewrite !eqb_spec, abs_spec.
  change (Prim2SF infinity) with (S754_infinity false).
  destruct (Prim2SF x) as [s|s| |s m e]; intros H.
  - left. exists s. reflexivity.
  - destruct s; discriminate H.
  - discriminate H.
  - right. exists s, m, e. reflexivity.
Qed.

(** After one row the running mean is the value itself, so the deviation
    from it is a zero. *)
Lemma first_deviation_zero (x : float) :
  PrimFloat.is_finite x = true ->
  sf_zero (Prim2SF (x - (0 + 1 * (x - 0)))).
Proof.
  intros F. pose proof (Prim2SF_valid x) as V.
  rewrite !sub_spec, add_spec, mul_spec, sub_spec.
  change (Prim2SF 0) with (S754_zero false).
  destruct (is_finite_cases x F) as [[s E]|(s & m & e & E)]; rewrite E in *.
  - destruct s; eexists; reflexivity.
  - change (SF64sub (S754_finite s m e) (S754_zero false))
      with (S754_finite s m e).
    rewrite (SF64mul_one_l s m e V).
    change (SF64add (S754_zero false) (S754_finite s m e))
      with (S754_finite s m e).
    rewrite SF64sub_diag. eexists; reflexivity.
Qed.

Lemma sub_zero_r (x : float) : PrimFloat.is_finite x = true -> x - 0 = x.
Proof.
  intros F. apply Prim2SF_inj. rewrite sub_spec.
  change (Prim2SF 0) with (S754_zero false).
  destruct (is_finite_cases x F) as [[s E]|(s & m & e & E)]; rewrite E.
  - destruct s; reflexivity.
  - reflexivity.
Qed.

Lemma zero_times_finite (a b : float) :
  sf_zero (Prim2SF a) -> PrimFloat.is_finite b = true ->
  sf_zero (Prim2SF (0 + a * b)).
Proof.
  intros [s E] F. rewrite add_spec, mul_spec, E.
  change (Prim2SF 0) with (S754_zero false).
  destruct (is_finite_cases b F) as [[s' E']|(s' & m & e & E')]; rewrite E';
    destruct s, s'; eexists; reflexivity.
Qed.

Lemma sqrt_zero_product (a b : float) :
  sf_zero (Prim2SF a) -> sf_zero (Prim2SF b) ->
  (PrimFloat.sqrt (a * b) =? 0) = true.
Proof.
  intros [s E] [s' E']. rewrite eqb_spec, sqrt_spec, mul_spec, E, E'.
  destruct s, s'; reflexivity.
Qed.

End F64.

(** ** Lists *)

Lemma isin_In (x : string) (values : list string) :
  isin x values = true <-> In x values.
Proof.
  unfold isin. rewrite existsb_exists. split.
  - intros [y [Hy E]]. apply String.eqb_eq in E. subst y. exact Hy.
  - intros H. exists x. split; [exact H | apply String.eqb_refl].
Qed.

Lemma between_in_range (x : float) (sel : float * float) :
  between x sel = true <-> in_range x sel.
Proof. unfold between, in_range. apply andb_true_iff. Qed.

Lemma filter_Subseq {A : Type} (f : A -> bool) (l : list A) :
  Subseq (filter f l) l.
Proof.
  induction l as [|x l IH]; simpl.
  - constructor.
  - destruct (f x); constructor; exact IH.
Qed.

(** ** Dataset loader *)

Section LoaderFacts.

Variable str_to_float : string -> option float.
Variable log1p : float -> float.


Lemma to_numeric_fails (c : cell) :
  fails_coercion str_to_float c -> to_numeric str_to_float c = PrimFloat.nan.
Proof. intros [s [-> E]]. simpl. rewrite E. reflexivity. Qed.

Lemma load_data_In (csv : list RawRow) (l : Listing) :
  In l (load_data str_to_float log1p csv) <->
  exists rr, In rr csv
             /\ l = feature_engineering log1p (coerce_num_cols str_to_float rr)
             /\ isna (to_numeric str_to_float (raw_price rr)) = false
             /\ isna (to_numeric str_to_float (raw_area rr)) = false.
Proof.
  unfold load_data, dropna_price_area.
  rewrite in_map_iff. split.
  - intros [row [<- Hin]]. apply filter_In in Hin. destruct Hin as [Hin Hk].
    apply in_map_iff in Hin. destruct Hin as [rr [<- Hrr]].
    unfold notna_price_area in Hk. apply andb_true_iff in Hk.
    destruct Hk as [Hp Ha]. apply negb_true_iff in Hp, Ha.
    exists rr. auto.
  - intros [rr (Hrr & -> & Hp & Ha)].
    exists (coerce_num_cols str_to_float rr). split; [reflexivity|].
    apply filter_In. split.
    + apply in_map. exact Hrr.
    + unfold notna_price_area. simpl. rewrite Hp, Ha. reflexivity.
Qed.

(** C10, as amended: a row whose price and area are numbers is kept
    whatever happens to its bedrooms, bathrooms and level cells; its rooms
    is the sum of the coerced bedrooms and bathrooms, whatever the level
    cell holds, so rooms is missing when the bedrooms or the bathrooms cell
    fails numeric coercion. *)
Theorem coercion_failure_keeps_row (csv : list RawRow) (rr : RawRow) :
  In rr csv ->
  isna (to_numeric str_to_float (raw_price rr)) = false ->
  isna (to_numeric str_to_float (raw_area rr)) = false ->
  let l := feature_engineering log1p (coerce_num_cols str_to_float rr) in
  In l (load_data str_to_float log1p csv)
  /\ rooms l = (to_numeric str_to_float (raw_bedrooms rr)
                + to_numeric str_to_float (raw_bathrooms rr))%float
  /\ (fails_coercion str_to_float (raw_bedrooms rr)
      \/ fails_coercion str_to_float (raw_bathrooms rr) ->
      isna (rooms l) = true).
Proof.
  intros Hin Hp Ha l. split; [|split].
  - apply load_data_In. exists rr. auto.
  - reflexivity.
  - simpl. intros [Hb | Hb]; rewrite (to_numeric_fails _ Hb).
    + rewrite F64.add_nan_l. reflexivity.
    + rewrite F64.add_nan_r. reflexivity.
Qed.

End LoaderFacts.

(** C10, as stated, fails for the level cell: the row is kept and its rooms
    is a number. *)
Lemma failed_level_keeps_rooms :
  fails_coercion parse_unsigned (raw_level raw_bad_level)
  /\ In (feature_engineering sample_log1p
           (coerce_num_cols parse_unsigned raw_bad_level))
        (sample_load [raw_bad_level])
  /\ isna (rooms (feature_engineering sample_log1p
                    (coerce_num_cols parse_unsigned raw_bad_level))) = false.
Proof.
  split; [|split].
  - exists "ground". split; reflexivity.
  - left. reflexivity.
  - reflexivity.
Qed.

Lemma coercion_failure_keeps_row_witness :
  In raw_bad_bedrooms [raw_bad_bedrooms; raw_bad_level]
  /\ fails_coercion parse_unsigned (raw_bedrooms raw_bad_bedrooms)
  /\ In (feature_engineering sample_log1p
           (coerce_num_cols parse_unsigned raw_bad_bedrooms))
        (sample_load [raw_bad_bedrooms; raw_bad_level])
  /\ isna (rooms (feature_engineering sample_log1p
                    (coerce_num_cols parse_unsigned raw_bad_bedrooms))) = true.
Proof.
  assert (Hin : In raw_bad_bedrooms [raw_bad_bedrooms; raw_bad_level])
    by (left; reflexivity).
  assert (Hf : fails_coercion parse_unsigned (raw_bedrooms raw_bad_bedrooms))
    by (exists "two"; split; reflexivity).
  pose proof (coercion_failure_keeps_row parse_unsigned sample_log1p
                [raw_bad_bedrooms; raw_bad_level] raw_bad_bedrooms
                Hin eq_refl eq_refl) as [Hk [_ Hr]].
  split; [exact Hin|]. split; [exact Hf|]. split; [exact Hk|].
  apply Hr. left. exact Hf.
Defined.

(** ** The loader with the columns' dtypes *)

Lemma in_combine_seq {A : Type} (l : list A) (s i : nat) (x : A) :
  In (i, x) (combine (seq s (List.length l)) l)
  <-> (s <= i)%nat /\ nth_error l (i - s) = Some x.
Proof.
  revert s. induction l as [|a l IH]; intros s; simpl.
  - split; [tauto|]. intros [_ H]. destruct (i - s)%nat; discriminate.
  - rewrite IH. split.
    + intros [E | [Hle Hn]].
      * injection E as <- <-. split; [lia|]. rewrite Nat.sub_diag.
        reflexivity.
      * split; [lia|].
        replace (i - s)%nat with (S (i - S s)) by lia. exact Hn.
    + intros [Hle Hn]. destruct (i - s)%nat as [|n] eqn:E.
      * left. injection Hn as ->. f_equal. lia.
      * right. split; [lia|].
        replace (i - S s)%nat with n by lia. exact Hn.
Qed.

Module Log1pFacts.

Import Reals Lra.
Local Open Scope R_scope.

(** The promise can be kept: with the relative error 1, already by the
    routine that returns 0. *)
Lemma log1p_within_one : Exact.log1p_within 1 (fun _ => 0%float).
Proof.
  intros x _ _. unfold Exact.ln1p_error_le.
  change (Exact.float_to_R 0%float) with 0.
  unfold Rminus. rewrite Rplus_0_l, Rabs_Ropp, Rmult_1_l. apply Rle_refl.
Qed.

(** A positive float64 is above -1. *)
Lemma gt_minus_one_positive (x : float) (m : positive) (e : Z) :
  Prim2SF x = S754_finite false m e -> Exact.gt_minus_one x.
Proof.
  intros E. unfold Exact.gt_minus_one, Exact.float_to_R. rewrite E.
  simpl cond_Zopp.
  assert (Hm : 0 < IZR (Z.pos m)) by (apply IZR_lt; lia).
  assert (He : 0 < powerRZ 2 e) by (apply powerRZ_lt; lra).
  pose proof (Rmult_lt_0_compat _ _ Hm He). lra.
Qed.

End Log1pFacts.

Section TypedLoaderFacts.

Import Typed.

Variable str_to_num : string -> option num.
Variable log1p : float -> float.

Lemma coerce_num_cols_In (csv : list RawRow) (r : Row) :
  In r (coerce_num_cols str_to_num csv)
  <-> exists i rr, nth_error csv i = Some rr
                   /\ r = coerce_row str_to_num csv i rr.
Proof.
  unfold coerce_num_cols. rewrite in_map_iff. split.
  - intros [[i rr] [<- Hin]]. apply in_combine_seq in Hin.
    destruct Hin as [_ Hn]. rewrite Nat.sub_0_r in Hn.
    exists i, rr. split; [exact Hn | reflexivity].
  - intros [i [rr [Hn ->]]]. exists (i, rr). split; [reflexivity|].
    apply in_combine_seq. split; [lia|]. rewrite Nat.sub_0_r. exact Hn.
Qed.

Lemma typed_load_data_In (csv : list RawRow) (l : Listing) :
  In l (load_data str_to_num log1p csv)
  <-> exists i rr,
        nth_error csv i = Some rr
        /\ l = feature_engineering log1p (coerce_row str_to_num csv i rr)
        /\ notna_price_area (coerce_row str_to_num csv i rr) = true.
Proof.
  unfold load_data, dropna_price_area. rewrite in_map_iff. split.
  - intros [r [<- Hin]]. apply filter_In in Hin. destruct Hin as [Hin Hk].
    apply coerce_num_cols_In in Hin. destruct Hin as [i [rr [Hn ->]]].
    exists i, rr. auto.
  - intros [i [rr (Hn & -> & Hk)]].
    exists (coerce_row str_to_num csv i rr). split; [reflexivity|].
    apply filter_In. split; [|exact Hk].
    apply coerce_num_cols_In. exists i, rr. auto.
Qed.

(** Every cell of a column has the column's dtype. *)
Lemma to_numeric_is_int (col : list cell) (c : cell) :
  In c col ->
  is_int (to_numeric str_to_num col c)
  = match result_dtype str_to_num col with
    | int64 => true
    | float64 => false
    end.
Proof.
  intros Hin. unfold to_numeric, result_dtype.
  destruct (forallb (fun c => is_int (coerce str_to_num c)) col) eqn:E.
  - simpl. rewrite forallb_forall in E. apply E, Hin.
  - reflexivity.
Qed.

Lemma add_int64 (b c : Z) :
  add (Int64 b) (Int64 c) = Int64 (wrap64 (b + c)).
Proof. reflexivity. Qed.

Lemma add_float64 (a b : num) :
  is_int a && is_int b = false ->
  add a b = Float64 (to_float a + to_float b).
Proof. destruct a, b; simpl; intros H; try reflexivity; discriminate. Qed.

Lemma wrap64_in_range (z : Z) : int64_range z -> wrap64 z = z.
Proof.
  unfold int64_range, wrap64. intros H.
  rewrite Z.mod_small by lia. lia.
Qed.

Lemma wrap64_range (z : Z) : int64_range (wrap64 z).
Proof.
  unfold int64_range, wrap64.
  pose proof (Z.mod_pos_bound (z + 2 ^ 63) (2 ^ 64) ltac:(lia)). lia.
Qed.

Lemma wrap64_congruent (z : Z) : ((wrap64 z - z) mod 2 ^ 64 = 0)%Z.
Proof.
  unfold wrap64.
  rewrite (Z.mod_eq (z + 2 ^ 63) (2 ^ 64)) by lia.
  replace (z + 2 ^ 63 - 2 ^ 64 * ((z + 2 ^ 63) / 2 ^ 64) - 2 ^ 63 - z)%Z
    with (- ((z + 2 ^ 63) / 2 ^ 64) * 2 ^ 64)%Z by ring.
  apply Z.mod_mul. lia.
Qed.


End TypedLoaderFacts.



(** *** The float64 loader is the loader on float64 columns *)

Lemma to_float_astype (d : Typed.dtype) (n : Typed.num) :
  Typed.to_float (Typed.astype d n) = Typed.to_float n.
Proof. destruct d; reflexivity. Qed.

Lemma to_float_coerce (str_to_num : string -> option Typed.num)
  (c : Typed.cell) :
  Typed.to_float (Typed.coerce str_to_num c)
  = to_numeric (untyped_parser str_to_num) (untyped_cell c).
Proof.
  destruct c as [z|x|s]; try reflexivity.
  simpl. unfold untyped_parser. destruct (str_to_num s); reflexivity.
Qed.

Lemma to_float_to_numeric (str_to_num : string -> option Typed.num)
  (col : list Typed.cell) (c : Typed.cell) :
  Typed.to_float (Typed.to_numeric str_to_num col c)
  = to_numeric (untyped_parser str_to_num) (untyped_cell c).
Proof.
  unfold Typed.to_numeric. rewrite to_float_astype. apply to_float_coerce.
Qed.

Lemma to_numeric_float64 (str_to_num : string -> option Typed.num)
  (col : list Typed.cell) (c : Typed.cell) :
  Typed.result_dtype str_to_num col = Typed.float64 ->
  Typed.to_numeric str_to_num col c
  = Typed.Float64 (to_numeric (untyped_parser str_to_num) (untyped_cell c)).
Proof.
  intros H. unfold Typed.to_numeric. rewrite H. simpl.
  rewrite to_float_coerce. reflexivity.
Qed.

Lemma map_snd_combine_seq {A : Type} (l : list A) (s : nat) :
  map snd (combine (seq s (List.length l)) l) = l.
Proof.
  revert s. induction l as [|a l IH]; intros s; [reflexivity|].
  simpl. rewrite IH. reflexivity.
Qed.

Section Float64Columns.

Variable str_to_num : string -> option Typed.num.
Variable log1p : float -> float.
Variable csv : list Typed.RawRow.

Hypothesis price_float64 :
  Typed.result_dtype str_to_num (map Typed.raw_price csv) = Typed.float64.
Hypothesis area_float64 :
  Typed.result_dtype str_to_num (map Typed.raw_area csv) = Typed.float64.
Hypothesis rooms_float64 :
  Typed.result_dtype str_to_num (map Typed.raw_bedrooms csv) = Typed.float64
  \/ Typed.result_dtype str_to_num (map Typed.raw_bathrooms csv)
     = Typed.float64.

Lemma coerce_row_kept (i : nat) (rr : Typed.RawRow) :
  Typed.notna_price_area (Typed.coerce_row str_to_num csv i rr)
  = notna_price_area
      (coerce_num_cols (untyped_parser str_to_num) (untyped_raw rr)).
Proof.
  unfold Typed.notna_price_area, notna_price_area. simpl.
  rewrite (to_numeric_float64 _ _ _ price_float64).
  rewrite (to_numeric_float64 _ _ _ area_float64). reflexivity.
Qed.

Lemma coerce_row_untyped (i : nat) (rr : Typed.RawRow) :
  untyped (Typed.feature_engineering log1p
             (Typed.coerce_row str_to_num csv i rr))
  = feature_engineering log1p
      (coerce_num_cols (untyped_parser str_to_num) (untyped_raw rr)).
Proof.
  unfold untyped, feature_engineering, coerce_num_cols.
  cbn [Typed.feature_engineering Typed.cols Typed.rooms Typed.price_per_m2
         Typed.log_price Typed.coerce_row Typed.ad_id Typed.city
         Typed.type_ Typed.rent Typed.furnished Typed.price Typed.area
         Typed.bedrooms Typed.bathrooms Typed.level
         untyped_raw raw_ad_id raw_city raw_type raw_rent raw_furnished
         raw_price raw_area raw_bedrooms raw_bathrooms raw_level
         price area bedrooms bathrooms].
  rewrite !to_float_to_numeric.
  f_equal.
  destruct rooms_float64 as [H | H].
  - rewrite (to_numeric_float64 _ _ _ H). cbn [Typed.add Typed.to_float].
    rewrite to_float_to_numeric. reflexivity.
  - rewrite (to_numeric_float64 _ _ (Typed.raw_bathrooms rr) H).
    destruct (Typed.to_numeric str_to_num (map Typed.raw_bedrooms csv)
                (Typed.raw_bedrooms rr)) eqn:E;
      cbn [Typed.add Typed.to_float];
      rewrite <- (to_float_to_numeric str_to_num
                    (map Typed.raw_bedrooms csv) (Typed.raw_bedrooms rr)), E;
      reflexivity.
Qed.

Lemma load_rows_untyped (ps : list (nat * Typed.RawRow)) :
  map untyped
    (map (Typed.feature_engineering log1p)
       (Typed.dropna_price_area
          (map (fun ir => Typed.coerce_row str_to_num csv (fst ir) (snd ir))
             ps)))
  = load_data (untyped_parser str_to_num) log1p
      (map untyped_raw (map snd ps)).
Proof.
  unfold load_data, dropna_price_area, Typed.dropna_price_area.
  induction ps as [|[i rr] ps IH]; [reflexivity|].
  cbn [map filter fst snd]. rewrite coerce_row_kept.
  destruct (notna_price_area _); [|exact IH].
  cbn [map]. rewrite coerce_row_untyped, IH. reflexivity.
Qed.

(** When the price and the area column are float64, and the bedrooms or the
    bathrooms column is, the loaded table is row for row the one that
    [load_data] computes in float64 throughout. *)
Lemma load_data_float64 :
  map untyped (Typed.load_data str_to_num log1p csv)
  = load_data (untyped_parser str_to_num) log1p (map untyped_raw csv).
Proof.
  unfold Typed.load_data, Typed.coerce_num_cols.
  rewrite load_rows_untyped, map_snd_combine_seq. reflexivity.
Qed.

End Float64Columns.

(** ** Filter engine *)

Lemma filter_mask_spec (S : FilterSpec) (l : Listing) :
  filter_mask S l = true <->
  In (city l) (cities S) /\ In (type_ l) (prop_types S)
  /\ In (rent l) (rent_opts S) /\ In (furnished l) (furn_opts S)
  /\ in_range (price l) (sel_price S) /\ in_range (area l) (sel_area S)
  /\ in_range (bedrooms l) (sel_bed S) /\ in_range (bathrooms l) (sel_bath S).
Proof.
  unfold filter_mask.
  rewrite !andb_true_iff, !isin_In, !between_in_range. tauto.
Qed.

(** C1: a listing appears in the filtered view exactly when it is a row of
    the table, its city, type, listing kind and furnished status are among
    the selected values, and its price, area, bedrooms and bathrooms lie
    within the selected inclusive ranges. *)
Theorem filter_sound_complete (T : DataFrame) (S : FilterSpec) (l : Listing) :
  In l (df_filtered T S) <->
  In l T
  /\ In (city l) (cities S) /\ In (type_ l) (prop_types S)
  /\ In (rent l) (rent_opts S) /\ In (furnished l) (furn_opts S)
  /\ in_range (price l) (sel_price S) /\ in_range (area l) (sel_area S)
  /\ in_range (bedrooms l) (sel_bed S) /\ in_range (bathrooms l) (sel_bath S).
Proof.
  unfold df_filtered. rewrite filter_In, filter_mask_spec. reflexivity.
Qed.

(** The filter keeps the table's order and never reorders rows. *)
Lemma df_filtered_Subseq (T : DataFrame) (S : FilterSpec) :
  Subseq (df_filtered T S) T.
Proof. apply filter_Subseq. Qed.

(** A missing number lies in no range. *)
Lemma nan_not_in_range (sel : float * float) : ~ in_range PrimFloat.nan sel.
Proof.
  intros [H _]. rewrite leb_spec in H.
  change (Prim2SF PrimFloat.nan) with S754_nan in H.
  F64.sf_cases (fst sel); discriminate H.
Qed.

(** ** Comparison selector *)

Lemma comp_df_In (view : DataFrame) (ids : list string) (l : Listing) :
  In l (comp_df view ids) <-> In l view /\ In (ad_id l) ids.
Proof. unfold comp_df. rewrite filter_In, isin_In. reflexivity. Qed.

Lemma isin_ext (ids ids' : list string) :
  (forall x, In x ids <-> In x ids') -> forall x, isin x ids = isin x ids'.
Proof.
  intros H x. apply eq_true_iff_eq. rewrite !isin_In. apply H.
Qed.

Lemma comp_df_skip (view : DataFrame) (ids : list string) (x : string) :
  ~ In x (ad_ids view) ->
  comp_df view (x :: ids) = comp_df view ids.
Proof.
  intros H. unfold comp_df. apply filter_ext_in. intros l Hl.
  unfold isin. simpl. destruct (String.eqb_spec (ad_id l) x) as [E|E].
  - exfalso. apply H. rewrite <- E. apply in_map_iff. exists l. auto.
  - reflexivity.
Qed.

(** C2, as stated, fails: selecting B before A resolves to A before B. *)
Lemma comp_df_not_in_ids_order :
  ad_ids (comp_df sample_view ["B"; "A"]) = ["A"; "B"]
  /\ comp_df sample_view ["B"; "A"]
     <> resolveComparison_spec sample_view ["B"; "A"].
Proof.
  split; [reflexivity|].
  intros H. apply (f_equal ad_ids) in H. discriminate H.
Qed.

(** C2, as amended: the selector returns the rows of the view whose id is
    among the given ids, in the order of the view; the order in which the
    ids are given plays no role; an id that is not in the view is skipped. *)
Theorem comp_df_view_order (view : DataFrame) (ids : list string) :
  Subseq (comp_df view ids) view
  /\ (forall l, In l (comp_df view ids) <-> In l view /\ In (ad_id l) ids)
  /\ (forall ids', (forall x, In x ids <-> In x ids') ->
                   comp_df view ids' = comp_df view ids)
  /\ (forall x, ~ In x (ad_ids view) ->
                comp_df view (x :: ids) = comp_df view ids).
Proof.
  split; [|split; [|split]].
  - apply filter_Subseq.
  - apply comp_df_In.
  - intros ids' H. unfold comp_df. apply filter_ext. intros l.
    symmetry. apply isin_ext. exact H.
  - intros x. apply comp_df_skip.
Qed.

(** Distinct ids that are all in the view resolve to at least as many rows. *)
Lemma comp_df_length (view : DataFrame) (ids : list string) :
  NoDup ids -> incl ids (ad_ids view) ->
  (List.length ids <= List.length (comp_df view ids))%nat.
Proof.
  intros Hnd Hincl.
  unfold ad_ids in *.
  rewrite <- (length_map (fun l : Listing => ad_id l) (comp_df view ids)).
  apply NoDup_incl_length; [exact Hnd|].
  intros x Hx. pose proof (Hincl x Hx) as Hv.
  apply in_map_iff in Hv. destruct Hv as [l [<- Hl]].
  apply in_map_iff. exists l. split; [reflexivity|].
  apply comp_df_In. auto.
Qed.

(** C4, as stated, fails: with ids A and X, X not in the view, one row
    resolves and the tab still shows a comparison table and a trace. *)
Lemma comparison_with_one_resolved :
  compare_tab sample_view ["A"; "X"]
  = Comparison [listing_A] (Some [trace_of listing_A])
  /\ ~ (forall view ids table radar,
          compare_tab view ids = Comparison table radar ->
          (2 <= List.length (comp_df view ids))%nat).
Proof.
  split; [reflexivity|].
  intros H.
  specialize (H sample_view ["A"; "X"] _ _ eq_refl).
  simpl in H. lia.
Qed.

(** C4, as amended: a comparison is presented exactly when at least two ids
    are selected, and the informational message is shown otherwise; when the
    selected ids are distinct ids of the view, as the sidebar offers them,
    a comparison that is presented has at least two resolved rows. *)
Theorem compare_gate_on_selected (view : DataFrame) (ids : list string) :
  ((List.length ids < 2)%nat ->
   compare_tab view ids
   = Info "Select at least two Ad IDs from the sidebar to compare.")
  /\ ((2 <= List.length ids)%nat ->
      exists radar, compare_tab view ids = Comparison (comp_df view ids) radar)
  /\ (NoDup ids -> incl ids (ad_ids view) ->
      forall table radar, compare_tab view ids = Comparison table radar ->
                          (2 <= List.length table)%nat).
Proof.
  unfold compare_tab. split; [|split].
  - intros H. apply Nat.ltb_lt in H. rewrite H. reflexivity.
  - intros H. apply Nat.ltb_ge in H. rewrite H. eexists. reflexivity.
  - intros Hnd Hincl table radar.
    destruct (Nat.ltb_spec (List.length ids) 2) as [Hlt|Hge]; [discriminate|].
    intros E. injection E as <- _.
    pose proof (comp_df_length view ids Hnd Hincl). lia.
Qed.

(** C9: the radar gate counts the selected ids: with more than five ids
    selected the tab shows the comparison table and no radar traces,
    however many of the ids resolve; with two to five ids it shows one
    trace per resolved row. *)
Theorem radar_gate_on_selected (view : DataFrame) (ids : list string) :
  ((5 < List.length ids)%nat ->
   compare_tab view ids = Comparison (comp_df view ids) None)
  /\ ((2 <= List.length ids <= 5)%nat ->
      compare_tab view ids
      = Comparison (comp_df view ids) (Some (map trace_of (comp_df view ids)))).
Proof.
  unfold compare_tab. split; intros H.
  - destruct (Nat.ltb_spec (List.length ids) 2); [lia|].
    destruct (Nat.leb_spec (List.length ids) 5); [lia|]. reflexivity.
  - destruct (Nat.ltb_spec (List.length ids) 2); [lia|].
    destruct (Nat.leb_spec (List.length ids) 5); [|lia]. reflexivity.
Qed.

(** Six ids are selected, one of them resolves: a one-row table, no radar. *)
Lemma radar_gate_on_selected_witness :
  (5 < List.length ["A"; "U"; "V"; "W"; "X"; "Y"])%nat
  /\ List.length (comp_df sample_view ["A"; "U"; "V"; "W"; "X"; "Y"]) = 1%nat
  /\ compare_tab sample_view ["A"; "U"; "V"; "W"; "X"; "Y"]
     = Comparison (comp_df sample_view ["A"; "U"; "V"; "W"; "X"; "Y"]) None.
Proof.
  assert (H : (5 < List.length ["A"; "U"; "V"; "W"; "X"; "Y"])%nat)
    by (simpl; lia).
  split; [exact H|]. split; [reflexivity|].
  exact (proj1 (radar_gate_on_selected sample_view _) H).
Defined.

Lemma compare_gate_on_selected_witness :
  NoDup ["A"; "B"]
  /\ incl ["A"; "B"] (ad_ids sample_view)
  /\ (2 <= List.length (comp_df sample_view ["A"; "B"]))%nat.
Proof.
  assert (Hnd : NoDup ["A"; "B"]).
  { repeat constructor; simpl; intuition discriminate. }
  assert (Hincl : incl ["A"; "B"] (ad_ids sample_view)).
  { intros x Hx. exact Hx. }
  split; [exact Hnd|]. split; [exact Hincl|].
  exact (proj2 (proj2 (compare_gate_on_selected sample_view ["A"; "B"]))
           Hnd Hincl _ _ eq_refl).
Defined.

(** ** Aggregation layer *)

(** C3, as stated, fails: the mean and the median of an empty view are NaN. *)
Lemma mean_median_empty_nan :
  ~ (forall field,
       isna (mean [] field) = false /\ isna (median [] field) = false).
Proof.
  intros H. destruct (H Price) as [H1 _]. discriminate H1.
Qed.

(** The mean and the median of a column without a number are NaN. *)
Lemma nanmean_all_na (xs : list float) :
  Forall (fun x => isna x = true) xs -> nanmean xs = PrimFloat.nan.
Proof.
  intros H. unfold nanmean, count_notna.
  assert (E : filter (fun x => negb (isna x)) xs = []).
  { induction H as [|x xs Hx _ IH]; [reflexivity|].
    simpl. rewrite Hx. exact IH. }
  rewrite E. reflexivity.
Qed.

Lemma nanmedian_all_na (xs : list float) :
  Forall (fun x => isna x = true) xs -> nanmedian xs = PrimFloat.nan.
Proof.
  intros H. unfold nanmedian.
  assert (E : filter (fun x => negb (isna x)) xs = []).
  { induction H as [|x xs Hx _ IH]; [reflexivity|].
    simpl. rewrite Hx. exact IH. }
  rewrite E. reflexivity.
Qed.

(** C3, as amended: for every field the mean and the median of an empty
    view are NaN, pandas' marker of a missing value; both are total
    functions, so nothing is raised. *)
Theorem mean_median_empty (field : num_col) :
  mean [] field = PrimFloat.nan /\ median [] field = PrimFloat.nan
  /\ isna (mean [] field) = true /\ isna (median [] field) = true.
Proof.
  unfold mean, median, column. simpl map.
  rewrite (nanmean_all_na [] (Forall_nil _)).
  rewrite (nanmedian_all_na [] (Forall_nil _)).
  repeat split.
Qed.

(** *** Correlation matrix *)

Lemma nth_map_seq {B : Type} (f : nat -> B) (K a : nat) (d : B) :
  nth a (map f (seq 0 K)) d = if (a <? K)%nat then f a else d.
Proof.
  destruct (Nat.ltb_spec a K) as [Hlt|Hge].
  - rewrite (nth_indep _ d (f 0%nat))
      by (rewrite length_map, length_seq; exact Hlt).
    rewrite map_nth, seq_nth by exact Hlt. reflexivity.
  - apply nth_overflow. rewrite length_map, length_seq. exact Hge.
Qed.

Lemma nancorr_nth (mat : list (list float)) (a b : nat) :
  nth b (nth a (nancorr mat) []) PrimFloat.nan
  = if ((a <? List.length mat) && (b <? List.length mat))%nat
    then nancorr_entry mat a b else PrimFloat.nan.
Proof.
  unfold nancorr. rewrite nth_map_seq.
  destruct (a <? List.length mat)%nat; simpl.
  - apply nth_map_seq.
  - destruct b; reflexivity.
Qed.

Lemma nancorr_entry_sym (mat : list (list float)) (a b : nat) :
  nancorr_entry mat a b = nancorr_entry mat b a.
Proof.
  unfold nancorr_entry. rewrite (Nat.max_comm a b), (Nat.min_comm a b).
  reflexivity.
Qed.

(** The accumulators after the first row that counts. *)
Lemma welford_first_row (vx vy : float) :
  PrimFloat.is_finite vx = true -> PrimFloat.is_finite vy = true ->
  nobs (welford_step welford0 (vx, vy)) = 1%nat
  /\ sf_zero (Prim2SF (ssqdmx (welford_step welford0 (vx, vy))))
  /\ sf_zero (Prim2SF (ssqdmy (welford_step welford0 (vx, vy)))).
Proof.
  intros Fx Fy. unfold welford_step. rewrite Fx, Fy. simpl andb. cbv iota.
  cbn [nobs ssqdmx ssqdmy meanx meany welford0].
  change (1 / float_of_nat 1)%float with 1%float.
  change PrimFloat.zero with 0%float.
  split; [reflexivity|]. split.
  - apply F64.zero_times_finite.
    + apply F64.first_deviation_zero, Fx.
    + rewrite F64.sub_zero_r; exact Fx.
  - apply F64.zero_times_finite.
    + apply F64.first_deviation_zero, Fy.
    + rewrite F64.sub_zero_r; exact Fy.
Qed.

(** With at most one row the coefficient of any two columns is NaN: no row
    leaves [nobs] under [minp], one row leaves the divisor at zero. *)
Lemma nancorr_pair_short (xs ys : list float) :
  (List.length xs <= 1)%nat -> nancorr_pair xs ys = PrimFloat.nan.
Proof.
  intros Hlen. unfold nancorr_pair.
  destruct xs as [|vx [|? ?]]; [reflexivity| |simpl in Hlen; lia].
  destruct ys as [|vy ys]; [reflexivity|].
  cbn [combine fold_left].
  destruct (PrimFloat.is_finite vx) eqn:Fx;
    [destruct (PrimFloat.is_finite vy) eqn:Fy|].
  - destruct (welford_first_row vx vy Fx Fy) as (En & Zx & Zy).
    rewrite En. simpl Nat.ltb. cbv iota.
    rewrite (F64.sqrt_zero_product _ _ Zx Zy). reflexivity.
  - unfold welford_step. rewrite Fx, Fy. reflexivity.
  - unfold welford_step. rewrite Fx. reflexivity.
Qed.

Lemma nth_short (mat : list (list float)) (i : nat) :
  Forall (fun col => (List.length col <= 1)%nat) mat ->
  (List.length (nth i mat []) <= 1)%nat.
Proof.
  intros H. destruct (Nat.lt_ge_cases i (List.length mat)) as [Hlt|Hge].
  - rewrite Forall_forall in H. apply H. apply nth_In. exact Hlt.
  - rewrite nth_overflow by exact Hge. simpl. lia.
Qed.

Lemma nancorr_short (mat : list (list float)) :
  Forall (fun col => (List.length col <= 1)%nat) mat ->
  Forall (Forall (fun x => isna x = true)) (nancorr mat).
Proof.
  intros H. unfold nancorr.
  apply Forall_forall. intros row Hrow.
  apply in_map_iff in Hrow. destruct Hrow as [a [<- _]].
  apply Forall_forall. intros x Hx.
  apply in_map_iff in Hx. destruct Hx as [b [<- _]].
  unfold nancorr_entry. rewrite nancorr_pair_short by (apply nth_short, H).
  reflexivity.
Qed.

(** *** The program runs the generic algorithm at binary64 *)

Lemma welford_step_to_over (w : welford) (v : float * float) :
  to_over (welford_step w v) = welford_step_over binary64 (to_over w) v.
Proof.
  destruct v as [vx vy]. unfold welford_step, welford_step_over.
  cbn [a_isfinite binary64].
  destruct (PrimFloat.is_finite vx && PrimFloat.is_finite vy); reflexivity.
Qed.

Lemma welford_fold_to_over (pairs : list (float * float)) (w : welford) :
  to_over (fold_left welford_step pairs w)
  = fold_left (welford_step_over binary64) pairs (to_over w).
Proof.
  revert w. induction pairs as [|v pairs IH]; intros w; [reflexivity|].
  simpl. rewrite IH, welford_step_to_over. reflexivity.
Qed.

Lemma nancorr_pair_binary64 (xs ys : list float) :
  nancorr_pair xs ys = nancorr_pair_over binary64 xs ys.
Proof.
  unfold nancorr_pair, nancorr_pair_over.
  change (welford0_over binary64) with (to_over welford0).
  rewrite <- welford_fold_to_over. reflexivity.
Qed.

Lemma nth_map_default {A B : Type} (f : A -> B) (l : list A) (i : nat)
  (x : A) (d : B) :
  nth_error l i = Some x -> nth i (map f l) d = f x.
Proof.
  revert i. induction l as [|a l IH]; intros [|i]; simpl; try discriminate.
  - intros E. injection E as ->. reflexivity.
  - apply IH.
Qed.

Lemma corr_entry (view : DataFrame) (a b : nat) (ca cb : num_col) :
  nth_error corr_cols a = Some ca -> nth_error corr_cols b = Some cb ->
  nth b (nth a (corr view) []) PrimFloat.nan
  = if (b <=? a)%nat then nancorr_pair (column ca view) (column cb view)
    else nancorr_pair (column cb view) (column ca view).
Proof.
  intros Ha Hb. unfold corr. rewrite nancorr_nth, length_map.
  assert (La : (a < List.length corr_cols)%nat)
    by (apply nth_error_Some; congruence).
  assert (Lb : (b < List.length corr_cols)%nat)
    by (apply nth_error_Some; congruence).
  apply Nat.ltb_lt in La, Lb. rewrite La, Lb. simpl andb. cbv iota.
  unfold nancorr_entry.
  destruct (Nat.leb_spec b a) as [H|H].
  - rewrite (Nat.max_l a b), (Nat.min_r a b) by lia.
    rewrite (nth_map_default _ _ _ _ _ Ha), (nth_map_default _ _ _ _ _ Hb).
    reflexivity.
  - rewrite (Nat.max_r a b), (Nat.min_l a b) by lia.
    rewrite (nth_map_default _ _ _ _ _ Ha), (nth_map_default _ _ _ _ _ Hb).
    reflexivity.
Qed.

(** *** The generic algorithm in exact arithmetic is Pearson's r *)

Module ExactFacts.

Import Reals Lra Field.
Import Exact.
Local Open Scope R_scope.

Lemma rsum_app (f : R * R -> R) (l1 l2 : list (R * R)) :
  rsum f (l1 ++ l2) = rsum f l1 + rsum f l2.
Proof. induction l1; simpl; lra. Qed.

Lemma rsum_centered (f g : R * R -> R) (a b : R) (pairs : list (R * R)) :
  rsum (fun p => (f p - a) * (g p - b)) pairs
  = rsum (fun p => f p * g p) pairs - b * rsum f pairs - a * rsum g pairs
    + INR (List.length pairs) * a * b.
Proof.
  induction pairs as [|p l IH].
  - simpl. lra.
  - cbn [rsum fold_right List.length].
    fold (rsum (fun p => (f p - a) * (g p - b)) l).
    fold (rsum (fun p => f p * g p) l). fold (rsum f l). fold (rsum g l).
    rewrite IH, S_INR. lra.
Qed.

Lemma rsum_square_nonneg (f : R * R -> R) (pairs : list (R * R)) :
  0 <= rsum (fun p => f p * f p) pairs.
Proof.
  induction pairs as [|p l IH]; simpl; [lra|].
  fold (rsum (fun p => f p * f p) l). pose proof (Rle_0_sqr (f p)) as H.
  unfold Rsqr in H. lra.
Qed.

Lemma welford_inv_step (pre : list (R * R)) (w : welford_over R)
  (p : R * R) :
  welford_inv pre w ->
  welford_inv (pre ++ [p]) (welford_step_over exact_real w p).
Proof.
  intros [Hn Hx Hy Hsx Hsy Hc]. destruct p as [x y].
  unfold welford_step_over. cbn [a_isfinite exact_real andb].
  cbn [a_sub a_add a_mul a_div a_one a_of_nat exact_real w_nobs w_meanx
         w_meany w_ssqdmx w_ssqdmy w_covxy].
  rewrite Hn.
  assert (Hlen : List.length (pre ++ [(x, y)]) = S (List.length pre)).
  { rewrite length_app. simpl. lia. }
  set (n := INR (List.length pre)) in *.
  assert (Hn1 : INR (S (List.length pre)) = n + 1) by apply S_INR.
  assert (Hpos : n + 1 <> 0).
  { pose proof (pos_INR (List.length pre)). unfold n. lra. }
  constructor; cbn [w_nobs w_meanx w_meany w_ssqdmx w_ssqdmy w_covxy];
    rewrite ?Hlen, ?rsum_app, ?Hn1; cbn [rsum fold_right fst snd].
  - reflexivity.
  - rewrite <- Hx. field. exact Hpos.
  - rewrite <- Hy. field. exact Hpos.
  - rewrite Hsx. field. exact Hpos.
  - rewrite Hsy. field. exact Hpos.
  - rewrite Hc. field. exact Hpos.
Qed.

Lemma welford_inv_fold (l pre : list (R * R)) (w : welford_over R) :
  welford_inv pre w ->
  welford_inv (pre ++ l) (fold_left (welford_step_over exact_real) l w).
Proof.
  revert pre w. induction l as [|p l IH]; intros pre w H; simpl.
  - rewrite app_nil_r. exact H.
  - replace (pre ++ p :: l) with ((pre ++ [p]) ++ l)
      by (rewrite <- app_assoc; reflexivity).
    apply IH, welford_inv_step, H.
Qed.

Lemma welford_inv_0 : welford_inv [] (welford0_over exact_real).
Proof. constructor; simpl; try reflexivity; lra. Qed.

Lemma combine_fst_snd {A B : Type} (l : list (A * B)) :
  combine (map fst l) (map snd l) = l.
Proof.
  induction l as [|[a b] l IH]; [reflexivity|]. simpl. rewrite IH. reflexivity.
Qed.

Theorem welford_exact (pairs : list (R * R)) :
  (pearson_defined pairs ->
   nancorr_pair_over exact_real (map fst pairs) (map snd pairs)
   = pearson_r pairs)
  /\ (~ pearson_defined pairs ->
      nancorr_pair_over exact_real (map fst pairs) (map snd pairs)
      = a_nan exact_real).
Proof.
  unfold nancorr_pair_over. rewrite combine_fst_snd.
  pose proof (welford_inv_fold pairs [] _ welford_inv_0) as H.
  simpl app in H.
  set (w := fold_left (welford_step_over exact_real) pairs
              (welford0_over exact_real)) in *.
  destruct H as [Hn Hx Hy Hsx Hsy Hc]. rewrite Hn.
  destruct pairs as [|p0 rest] eqn:Epairs.
  - split; [|reflexivity].
    intros Hdef. exfalso. apply Hdef. simpl. lra.
  - rewrite <- Epairs in *.
    assert (Hlen : (List.length pairs <? 1)%nat = false).
    { apply Nat.ltb_ge. rewrite Epairs. simpl. lia. }
    rewrite Hlen.
    set (n := INR (List.length pairs)) in *.
    assert (Hn0 : n <> 0).
    { unfold n. rewrite Epairs. simpl List.length. rewrite S_INR.
      pose proof (pos_INR (List.length rest)). lra. }
    assert (Emx : w_meanx w = rmean fst pairs).
    { unfold rmean. fold n. rewrite <- Hx. field. exact Hn0. }
    assert (Emy : w_meany w = rmean snd pairs).
    { unfold rmean. fold n. rewrite <- Hy. field. exact Hn0. }
    set (mx := rmean fst pairs) in *. set (my := rmean snd pairs) in *.
    assert (Esx : w_ssqdmx w
                  = rsum (fun p => (fst p - mx) * (fst p - mx)) pairs).
    { rewrite (rsum_centered fst fst mx mx), Hsx, Emx. fold n.
      rewrite <- Hx, Emx. ring. }
    assert (Esy : w_ssqdmy w
                  = rsum (fun p => (snd p - my) * (snd p - my)) pairs).
    { rewrite (rsum_centered snd snd my my), Hsy, Emy. fold n.
      rewrite <- Hy, Emy. ring. }
    assert (Ec : w_covxy w
                 = rsum (fun p => (fst p - mx) * (snd p - my)) pairs).
    { rewrite (rsum_centered fst snd mx my), Hc, Emx, Emy. fold n.
      rewrite <- Hx, <- Hy, Emx, Emy. ring. }
    cbn [a_sqrt a_mul a_div a_nonzero a_nan exact_real].
    rewrite Esx, Esy, Ec.
    set (sxx := rsum (fun p => (fst p - mx) * (fst p - mx)) pairs).
    set (syy := rsum (fun p => (snd p - my) * (snd p - my)) pairs).
    assert (Hxx : 0 <= sxx)
      by apply (rsum_square_nonneg (fun p => fst p - mx)).
    assert (Hyy : 0 <= syy)
      by apply (rsum_square_nonneg (fun p => snd p - my)).
    split.
    + intros Hdef. unfold pearson_defined in Hdef. fold mx my sxx syy in Hdef.
      assert (Hpos : 0 < sxx * syy).
      { pose proof (Rmult_le_pos _ _ Hxx Hyy). lra. }
      pose proof (sqrt_lt_R0 _ Hpos) as Hs.
      destruct (Req_dec_T (sqrt (sxx * syy)) 0) as [E|_]; [lra|].
      unfold pearson_r. fold mx my sxx syy. reflexivity.
    + intros Hundef.
      assert (E : sxx * syy = 0).
      { destruct (Req_dec_T (sxx * syy) 0) as [E|N]; [exact E|].
        exfalso. apply Hundef. exact N. }
      rewrite E, sqrt_0.
      destruct (Req_dec_T 0 0) as [_|N]; [reflexivity|congruence].
Qed.

(** Pearson's r does not depend on which variable is called x. *)
Lemma rsum_ext (f g : R * R -> R) (pairs : list (R * R)) :
  (forall p, f p = g p) -> rsum f pairs = rsum g pairs.
Proof.
  intros H. induction pairs as [|p l IH]; [reflexivity|].
  simpl. fold (rsum f l). fold (rsum g l). rewrite IH, H. reflexivity.
Qed.

Lemma rsum_swap (f : R * R -> R) (pairs : list (R * R)) :
  rsum f (map (fun p => (snd p, fst p)) pairs)
  = rsum (fun p => f (snd p, fst p)) pairs.
Proof.
  induction pairs as [|p l IH]; [reflexivity|].
  simpl. fold (rsum f (map (fun p => (snd p, fst p)) l)).
  fold (rsum (fun p => f (snd p, fst p)) l). rewrite IH. reflexivity.
Qed.

Lemma pearson_r_sym (pairs : list (R * R)) :
  pearson_r (map (fun p => (snd p, fst p)) pairs) = pearson_r pairs.
Proof.
  unfold pearson_r, rmean. rewrite !rsum_swap, length_map. simpl.
  set (mx := rsum fst pairs / INR (List.length pairs)).
  set (my := rsum snd pairs / INR (List.length pairs)).
  rewrite (Rmult_comm (rsum (fun p => (snd p - my) * (snd p - my)) pairs)).
  f_equal. apply rsum_ext. intros p. ring.
Qed.

Lemma pearson_r_sample :
  pearson_defined sample_pairs /\ pearson_r sample_pairs = 4 / 5.
Proof.
  unfold pearson_defined, pearson_r, rmean, sample_pairs.
  cbn [rsum fold_right List.length fst snd INR].
  replace ((1 + (2 + (3 + (4 + 0)))) / (1 + 1 + 1 + 1)) with (5 / 2)
    by field.
  replace ((1 + (3 + (2 + (4 + 0)))) / (1 + 1 + 1 + 1)) with (5 / 2)
    by field.
  match goal with
  | |- ?a * ?b <> 0 /\ ?c / sqrt (?a * ?b) = _ =>
      replace a with 5 by field; replace b with 5 by field;
      replace c with 4 by field
  end.
  split; [lra|].
  rewrite sqrt_square by lra. reflexivity.
Qed.

End ExactFacts.

(** On the four sample points binary64 returns the float nearest to 4/5. *)
Lemma nancorr_pair_sample :
  nancorr_pair [1; 2; 3; 4]%float [1; 3; 2; 4]%float
  = 0x1.999999999999ap-1%float.
Proof. vm_compute. reflexivity. Qed.



(** *** Insertion sort *)

Lemma StronglySorted_app_one {A : Type} (R : A -> A -> Prop)
  (l : list A) (x : A) :
  StronglySorted R l -> Forall (fun y => R y x) l ->
  StronglySorted R (l ++ [x]).
Proof.
  induction 1 as [|a l Hs IH Ha]; intros Hx; simpl.
  - repeat constructor.
  - inversion Hx as [|? ? Hax Hlx]; subst. constructor.
    + apply IH. exact Hlx.
    + apply Forall_app. split; [exact Ha|].
      constructor; [exact Hax|constructor].
Qed.

Lemma StronglySorted_rev {A : Type} (R : A -> A -> Prop) (l : list A) :
  StronglySorted R l -> StronglySorted (fun a b => R b a) (rev l).
Proof.
  induction 1 as [|a l Hs IH Ha]; simpl.
  - constructor.
  - apply StronglySorted_app_one; [exact IH|].
    apply Forall_rev. exact Ha.
Qed.

Lemma StronglySorted_impl_in {A : Type} (R R' : A -> A -> Prop) (l : list A) :
  (forall a b, In a l -> In b l -> R a b -> R' a b) ->
  StronglySorted R l -> StronglySorted R' l.
Proof.
  intros H Hs. induction Hs as [|a l Hs IH Ha].
  - constructor.
  - constructor.
    + apply IH. intros x y Hx Hy. apply H; right; assumption.
    + rewrite Forall_forall in *. intros y Hy.
      apply H; [left; reflexivity|right; exact Hy|apply Ha, Hy].
Qed.

Lemma StronglySorted_NoDup_strict {A : Type} (R : A -> A -> Prop) (l : list A) :
  StronglySorted R l -> NoDup l ->
  StronglySorted (fun a b => R a b /\ a <> b) l.
Proof.
  induction 1 as [|a l Hs IH Ha]; intros Hnd.
  - constructor.
  - inversion Hnd as [|? ? Hnotin Hnd']; subst. constructor.
    + apply IH, Hnd'.
    + rewrite Forall_forall in *. intros y Hy. split; [apply Ha, Hy|].
      intros ->. contradiction.
Qed.

Section InsertionSortFacts.

Context {A : Type}.
Variable less : A -> A -> bool.

Local Abbreviation ins :=
  (fun prefix_rev vp => insert_right less vp prefix_rev).

Lemma insert_right_perm (vp : A) (acc : list A) :
  Permutation (vp :: acc) (insert_right less vp acc).
Proof.
  induction acc as [|vk rest IH]; simpl.
  - apply Permutation_refl.
  - destruct (less vp vk).
    + eapply perm_trans; [apply perm_swap|]. apply perm_skip, IH.
    + apply Permutation_refl.
Qed.

Lemma fold_insert_perm (v acc : list A) :
  Permutation (fold_left ins v acc) (v ++ acc).
Proof.
  revert acc. induction v as [|x v IH]; intros acc; simpl.
  - apply Permutation_refl.
  - eapply perm_trans; [apply IH|].
    eapply perm_trans; [|apply Permutation_sym, Permutation_middle].
    apply Permutation_app_head, Permutation_sym, insert_right_perm.
Qed.

Lemma insertion_sort_perm (v : list A) : Permutation (insertion_sort less v) v.
Proof.
  unfold insertion_sort.
  eapply perm_trans; [apply Permutation_sym, Permutation_rev|].
  rewrite <- (app_nil_r v) at 2. apply fold_insert_perm.
Qed.

(** Sortedness, for a comparison that is a strict weak order on the
    elements that satisfy [P]. *)
Variable P : A -> Prop.
Hypothesis less_asym :
  forall a b, P a -> P b -> less a b = true -> less b a = false.
Hypothesis less_ntrans :
  forall a b c, P a -> P b -> P c ->
                less a b = false -> less b c = false -> less a c = false.

Lemma insert_right_sorted (vp : A) (acc : list A) :
  P vp -> Forall P acc ->
  StronglySorted (fun a b => less a b = false) acc ->
  StronglySorted (fun a b => less a b = false) (insert_right less vp acc).
Proof.
  intros Hp Hacc Hs. induction Hs as [|vk rest Hs IH Hk]; simpl.
  - repeat constructor.
  - inversion Hacc as [|? ? Hpk Hrest]; subst.
    destruct (less vp vk) eqn:E.
    + constructor; [apply IH, Hrest|].
      apply (Permutation_Forall (insert_right_perm vp rest)).
      constructor; [|exact Hk]. apply less_asym; assumption.
    + constructor; [constructor; assumption|].
      constructor; [exact E|].
      rewrite Forall_forall in *. intros y Hy.
      apply (less_ntrans vp vk y); auto.
Qed.

Lemma fold_insert_sorted (v acc : list A) :
  Forall P v -> Forall P acc ->
  StronglySorted (fun a b => less a b = false) acc ->
  StronglySorted (fun a b => less a b = false) (fold_left ins v acc).
Proof.
  revert acc. induction v as [|x v IH]; intros acc Hv Hacc Hs; simpl.
  - exact Hs.
  - inversion Hv as [|? ? Hx Hv']; subst. apply IH; [exact Hv'| |].
    + apply (Permutation_Forall (insert_right_perm x acc)).
      constructor; assumption.
    + apply insert_right_sorted; assumption.
Qed.

Lemma insertion_sort_sorted (v : list A) :
  Forall P v ->
  StronglySorted (fun a b => less b a = false) (insertion_sort less v).
Proof.
  intros Hv. unfold insertion_sort.
  apply (StronglySorted_rev (fun a b => less a b = false)).
  apply fold_insert_sorted; [exact Hv|constructor|constructor].
Qed.

(** Stability: elements that the comparison does not separate keep their
    order. *)
Variable tie : A -> bool.
Hypothesis tie_not_less :
  forall x y, tie x = true -> tie y = true -> less x y = false.

Lemma insert_right_filter (vp : A) (acc : list A) :
  filter tie (insert_right less vp acc) = filter tie (vp :: acc).
Proof.
  induction acc as [|vk rest IH]; [reflexivity|].
  simpl insert_right. destruct (less vp vk) eqn:E; [|reflexivity].
  cbn [filter]. rewrite IH. cbn [filter].
  destruct (tie vp) eqn:Tp, (tie vk) eqn:Tk; try reflexivity.
  rewrite (tie_not_less vp vk Tp Tk) in E. discriminate E.
Qed.

Lemma fold_insert_filter (v acc : list A) :
  filter tie (fold_left ins v acc) = filter tie (rev v ++ acc).
Proof.
  revert acc. induction v as [|x v IH]; intros acc; [reflexivity|].
  simpl fold_left. rewrite IH. simpl rev.
  rewrite <- app_assoc, !filter_app, insert_right_filter.
  cbn [filter app]. destruct (tie x); reflexivity.
Qed.

Lemma insertion_sort_stable (v : list A) :
  filter tie (insertion_sort less v) = filter tie v.
Proof.
  unfold insertion_sort.
  rewrite filter_rev, fold_insert_filter, app_nil_r, filter_rev, rev_involutive.
  reflexivity.
Qed.

End InsertionSortFacts.

(** *** The order on group keys *)

Lemma string_ltb_asym (a b : string) :
  String.ltb a b = true -> String.ltb b a = false.
Proof.
  unfold String.ltb. rewrite (String.compare_antisym b a).
  destruct (String.compare a b); simpl; congruence.
Qed.

Lemma string_ltb_lts (a b : string) :
  String.ltb a b = true <-> OrderedTypeEx.String_as_OT.lt a b.
Proof.
  rewrite <- OrderedTypeEx.String_as_OT.cmp_lt.
  unfold String.ltb, OrderedTypeEx.String_as_OT.cmp.
  destruct (String.compare a b); split; congruence.
Qed.

Lemma string_ltb_total (a b : string) :
  a <> b -> String.ltb b a = false -> String.ltb a b = true.
Proof.
  unfold String.ltb. rewrite (String.compare_antisym b a).
  destruct (String.compare a b) eqn:E; simpl; try congruence.
  intros H _. apply String.compare_eq_iff in E. contradiction.
Qed.

Lemma string_ltb_ntrans (a b c : string) :
  String.ltb a b = false -> String.ltb b c = false -> String.ltb a c = false.
Proof.
  intros Hab Hbc. destruct (String.ltb a c) eqn:Hac; [exfalso|reflexivity].
  destruct (string_dec a b) as [->|Hne]; [congruence|].
  assert (Hba : String.ltb b a = true).
  { apply string_ltb_total; [congruence|exact Hab]. }
  apply string_ltb_lts in Hac, Hba.
  pose proof (OrderedTypeEx.String_as_OT.lt_trans _ _ _ Hba Hac) as Hlt.
  apply string_ltb_lts in Hlt. congruence.
Qed.

Lemma group_keys_In (view : DataFrame) (k : string) :
  In k (group_keys view) <-> In k (types view).
Proof.
  unfold group_keys.
  pose proof (insertion_sort_perm String.ltb (nodup string_dec (types view)))
    as Hperm.
  split; intros H.
  - apply (nodup_In string_dec). exact (Permutation_in _ Hperm H).
  - apply (nodup_In string_dec) in H.
    apply Permutation_sym in Hperm. exact (Permutation_in _ Hperm H).
Qed.

(** The group keys come in strictly ascending order. *)
Lemma group_keys_sorted (view : DataFrame) :
  StronglySorted (fun a b => String.ltb a b = true) (group_keys view).
Proof.
  unfold group_keys.
  set (keys := nodup string_dec (types view)).
  assert (Hnd : NoDup (insertion_sort String.ltb keys)).
  { apply (Permutation_NoDup (Permutation_sym (insertion_sort_perm _ keys))).
    apply NoDup_nodup. }
  assert (Hs : StronglySorted (fun a b => String.ltb b a = false)
                 (insertion_sort String.ltb keys)).
  { apply (insertion_sort_sorted String.ltb (fun _ => True)).
    - intros a b _ _. apply string_ltb_asym.
    - intros a b c _ _ _. apply string_ltb_ntrans.
    - apply Forall_forall. trivial. }
  apply (StronglySorted_impl_in _ _ _
           (fun a b _ _ (H : String.ltb b a = false /\ a <> b) =>
              string_ltb_total a b (proj2 H) (proj1 H))).
  apply StronglySorted_NoDup_strict; assumption.
Qed.

Lemma groupby_keys (view : DataFrame) :
  map fst (groupby_type_price_mean view) = group_keys view.
Proof.
  unfold groupby_type_price_mean. rewrite map_map. apply map_id.
Qed.

Lemma groupby_In (view : DataFrame) (k : string) (m : float) :
  In (k, m) (groupby_type_price_mean view) <->
  In k (types view) /\ m = group_mean view k.
Proof.
  unfold groupby_type_price_mean. rewrite in_map_iff, <- group_keys_In. split.
  - intros [k' [E Hk]]. injection E as -> <-. auto.
  - intros [Hk ->]. exists k. auto.
Qed.

(** *** Sorting the group means *)

Lemma filter_none {A : Type} (f : A -> bool) (l : list A) :
  Forall (fun x => f x = false) l -> filter f l = [].
Proof.
  induction 1 as [|x l Hx _ IH]; [reflexivity|]. simpl. rewrite Hx. exact IH.
Qed.

Lemma filter_filter_implied {A : Type} (f g : A -> bool) (l : list A) :
  (forall x, f x = true -> g x = true) -> filter f (filter g l) = filter f l.
Proof.
  intros H. induction l as [|x l IH]; [reflexivity|]. simpl.
  destruct (g x) eqn:G; simpl; rewrite IH; [reflexivity|].
  destruct (f x) eqn:F; [|reflexivity].
  rewrite (H x F) in G. discriminate G.
Qed.

Lemma filter_split_perm {A : Type} (f : A -> bool) (l : list A) :
  Permutation (filter (fun x => negb (f x)) l ++ filter f l) l.
Proof.
  induction l as [|x l IH]; [constructor|]. simpl.
  destruct (f x); simpl.
  - apply Permutation_sym. eapply perm_trans; [|apply Permutation_middle].
    apply perm_skip, Permutation_sym, IH.
  - apply perm_skip, IH.
Qed.

Section SortValuesFacts.

Variable quicksort : Series -> Series.
Hypothesis quicksort_sorts : sorts_ascending quicksort.

Lemma sort_values_desc_perm (s : Series) :
  Permutation (sort_values_desc quicksort s) s.
Proof.
  unfold sort_values_desc.
  set (nn := filter (fun kv => negb (isna (snd kv))) s).
  assert (Hnn : Forall (fun kv : string * float => isna (snd kv) = false)
                  (rev nn)).
  { apply Forall_rev, Forall_forall. intros kv H. apply filter_In in H.
    apply negb_true_iff, H. }
  eapply perm_trans; [|apply (filter_split_perm (fun kv => isna (snd kv)))].
  apply Permutation_app_tail.
  eapply perm_trans; [apply Permutation_sym, Permutation_rev|].
  eapply perm_trans; [apply (quicksort_sorts _ Hnn)|].
  apply Permutation_sym, Permutation_rev.
Qed.

Lemma sort_values_desc_sorted (s : Series) :
  sorted_desc_na_last (sort_values_desc quicksort s).
Proof.
  unfold sort_values_desc.
  set (nn := filter (fun kv => negb (isna (snd kv))) s).
  assert (Hnn : Forall (fun kv : string * float => isna (snd kv) = false)
                  (rev nn)).
  { apply Forall_rev, Forall_forall. intros kv H. apply filter_In in H.
    apply negb_true_iff, H. }
  destruct (quicksort_sorts _ Hnn) as [Hperm Hsorted].
  exists (rev (quicksort (rev nn))), (filter (fun kv => isna (snd kv)) s).
  split; [reflexivity|]. split; [|split].
  - apply (StronglySorted_rev _ _ Hsorted).
  - apply Forall_rev.
    apply (Permutation_Forall (Permutation_sym Hperm)), Hnn.
  - apply Forall_forall. intros kv H. apply filter_In in H. apply H.
Qed.

End SortValuesFacts.

(** The insertion sort has the guarantee of numpy's sort. *)
Lemma insertion_quicksort_sorts : sorts_ascending insertion_quicksort.
Proof.
  intros s Hs. unfold insertion_quicksort. split.
  - apply insertion_sort_perm.
  - apply (StronglySorted_impl_in (fun a b => value_less b a = false)).
    + pose proof (Permutation_Forall
                    (Permutation_sym (insertion_sort_perm value_less s)) Hs)
        as H.
      rewrite Forall_forall in H. intros a b Ha Hb E.
      apply F64.ltb_false_leb; auto.
    + apply (insertion_sort_sorted value_less
               (fun kv => isna (snd kv) = false)).
      * intros a b _ _. apply F64.ltb_asym.
      * intros a b c. apply F64.ltb_false_trans.
      * exact Hs.
Qed.

(** *** What the result depends on *)

Lemma strict_sorted_unique (l1 l2 : list string) :
  StronglySorted (fun a b => String.ltb a b = true) l1 ->
  StronglySorted (fun a b => String.ltb a b = true) l2 ->
  (forall x, In x l1 <-> In x l2) -> l1 = l2.
Proof.
  intros H1. revert l2. induction H1 as [|a t1 Ht1 IH Ha]; intros l2 H2 Hin.
  - destruct l2 as [|b t2]; [reflexivity|].
    exfalso. apply (Hin b). left. reflexivity.
  - destruct H2 as [|b t2 Ht2 Hb].
    + exfalso. apply (Hin a). left. reflexivity.
    + rewrite Forall_forall in Ha, Hb.
      assert (Hirr : forall x, String.ltb x x = true -> False).
      { intros x E. pose proof (string_ltb_asym x x E). congruence. }
      assert (E : a = b).
      { destruct (proj1 (Hin a) (or_introl eq_refl)) as [E|Hat2]; [auto|].
        destruct (proj2 (Hin b) (or_introl eq_refl)) as [E|Hbt1]; [auto|].
        pose proof (string_ltb_asym _ _ (Ha b Hbt1)) as Hn.
        rewrite (Hb a Hat2) in Hn. discriminate Hn. }
      subst b. f_equal. apply IH; [exact Ht2|].
      intros x. split; intros Hx.
      * destruct (proj1 (Hin x) (or_intror Hx)) as [<-|H]; [|exact H].
        exfalso. apply (Hirr a), Ha, Hx.
      * destruct (proj2 (Hin x) (or_intror Hx)) as [<-|H]; [|exact H].
        exfalso. apply (Hirr a), Hb, Hx.
Qed.

Lemma types_group_rows (view : DataFrame) (k : string) :
  In k (types view) <-> group_rows view k <> [].
Proof.
  unfold types, group_rows. split.
  - intros H. apply in_map_iff in H. destruct H as [l [<- Hl]].
    assert (Hin : In l (filter (fun r : Listing =>
                                  String.eqb (type_ r) (type_ l)) view)).
    { apply filter_In. split; [exact Hl|apply String.eqb_refl]. }
    intros E. rewrite E in Hin. contradiction.
  - intros H.
    destruct (filter (fun r : Listing => String.eqb (type_ r) k) view)
      as [|l rest] eqn:E; [congruence|].
    assert (Hin : In l (filter (fun r : Listing => String.eqb (type_ r) k)
                          view)) by (rewrite E; left; reflexivity).
    apply filter_In in Hin. destruct Hin as [Hl Hk].
    apply String.eqb_eq in Hk. subst k. apply in_map_iff. exists l. auto.
Qed.

(** Two views with the same rows in every group have the same grouped
    series, whichever group a view meets first. *)
Lemma groupby_same_groups (view view' : DataFrame) :
  (forall k, group_rows view k = group_rows view' k) ->
  groupby_type_price_mean view = groupby_type_price_mean view'.
Proof.
  intros H. unfold groupby_type_price_mean.
  assert (E : group_keys view = group_keys view').
  { apply strict_sorted_unique; try apply group_keys_sorted.
    intros k. rewrite !group_keys_In, !types_group_rows, H. reflexivity. }
  rewrite E. apply map_ext. intros k. unfold group_mean. rewrite H.
  reflexivity.
Qed.

(** C5, as stated, fails: the two types of [tie_view] have the same mean,
    and the grouped series is the same for the view and for the view in
    reverse order, so whatever the sort does it cannot put first the type
    that each of the two views meets first. *)
Lemma type_price_ties_not_first_seen :
  groupMean_spec tie_view
  = [("villa", 100%float); ("apartment", 100%float)]
  /\ groupMean_spec (rev tie_view)
     = [("apartment", 100%float); ("villa", 100%float)]
  /\ ~ exists quicksort,
         type_price quicksort tie_view = groupMean_spec tie_view
         /\ type_price quicksort (rev tie_view)
            = groupMean_spec (rev tie_view).
Proof.
  split; [reflexivity|]. split; [reflexivity|].
  intros [quicksort [H1 H2]].
  assert (E : type_price quicksort tie_view
              = type_price quicksort (rev tie_view)) by reflexivity.
  rewrite H1, H2 in E. apply (f_equal (map fst)) in E. discriminate E.
Qed.

(** C5, as amended: the result holds one (group, mean) pair for each type
    of the view, sorted descending by mean with the groups without a mean
    last; the order of first encounter plays no part: two views with the
    same rows in every group give the same result, the order between
    groups of equal mean being the one numpy's sort leaves. *)
Theorem type_price_sorted_desc (quicksort : Series -> Series)
  (view : DataFrame) :
  sorts_ascending quicksort ->
  (forall k m,
      In (k, m) (type_price quicksort view) <->
      In k (types view) /\ m = group_mean view k)
  /\ NoDup (map fst (type_price quicksort view))
  /\ sorted_desc_na_last (type_price quicksort view)
  /\ (forall view',
         (forall k, group_rows view' k = group_rows view k) ->
         type_price quicksort view' = type_price quicksort view).
Proof.
  intros Hq.
  pose proof (sort_values_desc_perm quicksort Hq
                (groupby_type_price_mean view)) as Hperm.
  split; [|split; [|split]].
  - intros k m. rewrite <- groupby_In. unfold type_price. split.
    + apply Permutation_in, Hperm.
    + apply Permutation_in, Permutation_sym, Hperm.
  - apply (Permutation_NoDup
             (Permutation_sym (Permutation_map fst Hperm))).
    rewrite groupby_keys.
    apply (Permutation_NoDup
             (Permutation_sym (insertion_sort_perm String.ltb _))).
    apply NoDup_nodup.
  - apply sort_values_desc_sorted, Hq.
  - intros view' H. unfold type_price.
    rewrite (groupby_same_groups view' view H). reflexivity.
Qed.

Lemma type_price_sorted_desc_witness :
  sorts_ascending insertion_quicksort
  /\ sorted_desc_na_last (type_price insertion_quicksort (rev tie_view))
  /\ type_price insertion_quicksort (rev tie_view)
     = type_price insertion_quicksort tie_view.
Proof.
  destruct (type_price_sorted_desc insertion_quicksort tie_view
              insertion_quicksort_sorts) as (_ & _ & _ & Hsame).
  split; [exact insertion_quicksort_sorts|]. split.
  - exact (proj1 (proj2 (proj2
             (type_price_sorted_desc insertion_quicksort (rev tie_view)
                insertion_quicksort_sorts)))).
  - apply Hsame. intros k. unfold group_rows.
    assert (Ev : type_ (listing "V" "villa" 100 10 2 1) = "villa")
      by reflexivity.
    assert (Ea : type_ (listing "W" "apartment" 100 20 3 2) = "apartment")
      by reflexivity.
    unfold tie_view. cbn [rev app filter]. rewrite Ev, Ea.
    destruct (String.eqb_spec "villa" k) as [E1|_];
      destruct (String.eqb_spec "apartment" k) as [E2|_];
      try reflexivity.
    rewrite <- E1 in E2. discriminate E2.
Defined.

Lemma comp_df_view_order_witness :
  comp_df sample_view ["A"; "B"] = comp_df sample_view ["B"; "A"]
  /\ comp_df sample_view ["X"; "B"; "A"] = comp_df sample_view ["B"; "A"].
Proof.
  destruct (comp_df_view_order sample_view ["B"; "A"])
    as (_ & _ & Hord & Hskip).
  split.
  - apply Hord. intros x. simpl. tauto.
  - apply Hskip. simpl. intuition discriminate.
Defined.

(** ** The specification's example *)

Definition price_100_150 : FilterSpec :=
  {| cities := ["Cairo"];
     prop_types := ["apartment"; "villa"];
     rent_opts := ["sale"];
     furn_opts := ["no"];
     sel_price := (100, 150)%float;
     sel_area := (10, 20)%float;
     sel_bed := (2, 3)%float;
     sel_bath := (1, 2)%float |}.

Example filter_price_100_150 :
  df_filtered sample_view price_100_150 = [listing_A]
  /\ mean (df_filtered sample_view price_100_150) Price = 100%float
  /\ median (df_filtered sample_view price_100_150) Area = 10%float.
Proof. repeat split. Qed.

(** * Further properties of the script *)

(** ** More binary64 facts *)

Module F64More.

Local Open Scope float_scope.

Lemma ltb_leb (x y : float) : (x <? y) = true -> (x <=? y) = true.
Proof.
  rewrite ltb_spec, leb_spec. unfold SFltb, SFleb.
  destruct (SFcompare (Prim2SF x) (Prim2SF y)) as [[| |]|]; congruence.
Qed.

Lemma ltb_not_leb (x y : float) : (y <? x) = true -> (x <=? y) = false.
Proof.
  rewrite ltb_spec, leb_spec. unfold SFltb, SFleb.
  rewrite (F64.SFcompare_antisym (Prim2SF y) (Prim2SF x)).
  destruct (SFcompare (Prim2SF y) (Prim2SF x)) as [[| |]|]; simpl; congruence.
Qed.

Lemma leb_notna (x y : float) :
  (x <=? y) = true -> isna x = false /\ isna y = false.
Proof.
  rewrite leb_spec, !F64.notna_spec. unfold SFleb.
  destruct (Prim2SF x) as [[|]|[|]| |? ? ?], (Prim2SF y) as [[|]|[|]| |? ? ?];
    simpl; intros H; try discriminate H; split; discriminate.
Qed.

Lemma leb_refl (x : float) : isna x = false -> (x <=? x) = true.
Proof.
  intros H. apply F64.ltb_false_leb; try exact H.
  destruct (x <? x) eqn:E; [|reflexivity].
  pose proof (F64.ltb_asym _ _ E). congruence.
Qed.

Lemma leb_antisym_eqb (x y : float) :
  (x <=? y) = true -> (y <=? x) = true -> (x =? y) = true.
Proof.
  rewrite eqb_spec, !leb_spec. unfold SFeqb, SFleb.
  rewrite (F64.SFcompare_antisym (Prim2SF x) (Prim2SF y)).
  destruct (SFcompare (Prim2SF x) (Prim2SF y)) as [[| |]|]; simpl; congruence.
Qed.

(** A range with equal ends holds the numbers equal to the end. *)
Lemma between_point (x v : float) : between x (v, v) = (x =? v).
Proof.
  unfold between. simpl fst. simpl snd. apply eq_true_iff_eq.
  rewrite andb_true_iff. split.
  - intros [H1 H2]. apply leb_antisym_eqb; assumption.
  - intros H. apply F64.eqb_leb in H. tauto.
Qed.

(** Division by a zero does not trap: a finite number that is not zero
    gives an infinity, a zero gives NaN. *)
Lemma div_by_zero (p a : float) :
  (a =? 0) = true ->
  (PrimFloat.is_finite p = true -> (p =? 0) = false ->
   PrimFloat.is_infinity (p / a) = true)
  /\ ((p =? 0) = true -> isna (p / a) = true).
Proof.
  intros Ha.
  assert (Za : sf_zero (Prim2SF a)).
  { rewrite eqb_spec in Ha. change (Prim2SF 0) with (S754_zero false) in Ha.
    destruct (Prim2SF a) as [s|[|]| |[|] ? ?]; try discriminate Ha.
    exists s. reflexivity. }
  destruct Za as [sa Ea]. split.
  - intros Fp Np. unfold PrimFloat.is_infinity.
    rewrite eqb_spec, abs_spec, div_spec, Ea.
    rewrite eqb_spec in Np. change (Prim2SF 0) with (S754_zero false) in Np.
    destruct (F64.is_finite_cases p Fp) as [[s E]|(s & m & e & E)];
      rewrite E in *; [destruct s; discriminate Np|].
    reflexivity.
  - intros Zp. apply F64.isna_spec. rewrite div_spec, Ea.
    rewrite eqb_spec in Zp. change (Prim2SF 0) with (S754_zero false) in Zp.
    destruct (Prim2SF p) as [s|[|]| |[|] ? ?]; try discriminate Zp.
    reflexivity.
Qed.

End F64More.

(** ** More on lists *)

Lemma Subseq_map {A B : Type} (f : A -> B) (l1 l2 : list A) :
  Subseq l1 l2 -> Subseq (map f l1) (map f l2).
Proof. induction 1; simpl; constructor; assumption. Qed.

Lemma Subseq_length {A : Type} (l1 l2 : list A) :
  Subseq l1 l2 -> (List.length l1 <= List.length l2)%nat.
Proof. induction 1; simpl; lia. Qed.

Lemma filter_idem {A : Type} (f : A -> bool) (l : list A) :
  filter f (filter f l) = filter f l.
Proof. apply filter_filter_implied. trivial. Qed.

Lemma filter_comm {A : Type} (f g : A -> bool) (l : list A) :
  filter f (filter g l) = filter g (filter f l).
Proof.
  induction l as [|x l IH]; [reflexivity|]. simpl.
  destruct (f x) eqn:F, (g x) eqn:G; simpl; rewrite ?F, ?G, IH; reflexivity.
Qed.

(** ** More on the loader *)

Lemma map_fst_combine_seq {A : Type} (l : list A) (s : nat) :
  map fst (combine (seq s (List.length l)) l) = seq s (List.length l).
Proof.
  revert s. induction l as [|a l IH]; intros s; [reflexivity|].
  simpl. rewrite IH. reflexivity.
Qed.

Lemma seq_StronglySorted (s n : nat) : StronglySorted lt (seq s n).
Proof.
  revert s. induction n as [|n IH]; intros s; simpl; constructor.
  - apply IH.
  - apply Forall_forall. intros i Hi. apply in_seq in Hi. lia.
Qed.

Lemma StronglySorted_map_filter {A B : Type} (R : B -> B -> Prop)
  (g : A -> B) (f : A -> bool) (l : list A) :
  StronglySorted R (map g l) -> StronglySorted R (map g (filter f l)).
Proof.
  induction l as [|a l IH]; simpl; intros H; [constructor|].
  apply StronglySorted_inv in H. destruct H as [Hl Ha].
  destruct (f a); simpl; [constructor|]; try (apply IH; exact Hl).
  rewrite Forall_forall in *. intros b Hb. apply Ha.
  apply in_map_iff in Hb. destruct Hb as [x [<- Hx]].
  apply filter_In in Hx. apply in_map. apply Hx.
Qed.

(** X2: a CSV row whose price or area is blank or fails numeric coercion is
    dropped, and the rows that stay keep the index labels [pd.read_csv] gave
    them, their positions in the CSV: the table is not renumbered.  The
    labels of the table increase; the CSV row at position i is in the table,
    under the label i, exactly when its price and its area are numbers; and
    the row labelled i holds the cells of the CSV row at position i. *)
Theorem load_data_index_labels
  (str_to_num : string -> option Typed.num) (log1p : float -> float)
  (csv : list Typed.RawRow) :
  StronglySorted lt
    (map (fun l => Typed.index (Typed.cols l))
       (Typed.load_data str_to_num log1p csv))
  /\ (forall i rr,
        nth_error csv i = Some rr ->
        (exists l, In l (Typed.load_data str_to_num log1p csv)
                   /\ Typed.index (Typed.cols l) = i)
        <-> Typed.notna (Typed.to_numeric str_to_num
                           (map Typed.raw_price csv) (Typed.raw_price rr))
            && Typed.notna (Typed.to_numeric str_to_num
                              (map Typed.raw_area csv) (Typed.raw_area rr))
            = true)
  /\ (forall l,
        In l (Typed.load_data str_to_num log1p csv) ->
        exists rr,
          nth_error csv (Typed.index (Typed.cols l)) = Some rr
          /\ l = Typed.feature_engineering log1p
                   (Typed.coerce_row str_to_num csv
                      (Typed.index (Typed.cols l)) rr)).
Proof.
  split; [|split].
  - unfold Typed.load_data, Typed.dropna_price_area, Typed.coerce_num_cols.
    rewrite map_map.
    change (fun x : Typed.Row =>
              Typed.index (Typed.cols (Typed.feature_engineering log1p x)))
      with Typed.index.
    apply StronglySorted_map_filter. rewrite map_map.
    change (fun x : nat * Typed.RawRow =>
              Typed.index (Typed.coerce_row str_to_num csv (fst x) (snd x)))
      with (@fst nat Typed.RawRow).
    rewrite map_fst_combine_seq. apply seq_StronglySorted.
  - intros i rr Hn. split.
    + intros [l [Hin Hi]]. apply typed_load_data_In in Hin.
      destruct Hin as [i' [rr' (Hn' & -> & Hk)]]. simpl in Hi. subst i'.
      rewrite Hn in Hn'. injection Hn' as <-. exact Hk.
    + intros Hk.
      exists (Typed.feature_engineering log1p
                (Typed.coerce_row str_to_num csv i rr)).
      split; [|reflexivity].
      apply typed_load_data_In. exists i, rr. auto.
  - intros l Hin. apply typed_load_data_In in Hin.
    destruct Hin as [i [rr (Hn & -> & _)]]. exists rr. simpl. auto.
Qed.

(** In [typed_csv] the row at position 1 has no price: the table holds the
    rows labelled 0 and 2. *)
Lemma typed_csv_index_labels :
  map (fun l => Typed.index (Typed.cols l)) (typed_load typed_csv) = [0; 2]%nat.
Proof. reflexivity. Qed.

Section LoaderMore.

Variable str_to_float : string -> option float.
Variable log1p : float -> float.

(** X3: the loader keeps the order of the rows and copies their text columns:
    the loaded rows are some of the CSV's rows, in the CSV's order. *)
Theorem load_data_keeps_order (csv : list RawRow) :
  Subseq (map texts (load_data str_to_float log1p csv)) (map raw_texts csv)
  /\ (List.length (load_data str_to_float log1p csv) <= List.length csv)%nat.
Proof.
  assert (S : Subseq (map texts (load_data str_to_float log1p csv))
                (map raw_texts csv)).
  { unfold load_data, dropna_price_area. rewrite map_map.
    replace (map raw_texts csv)
      with (map (fun r : Row => texts (feature_engineering log1p r))
              (map (coerce_num_cols str_to_float) csv))
      by (rewrite map_map; reflexivity).
    apply Subseq_map, filter_Subseq. }
  split; [exact S|].
  apply Subseq_length in S. rewrite !length_map in S. exact S.
Qed.

(** X4: a listing whose area is zero is loaded without an error: its price per
    square metre is an infinity when the price is a finite number other
    than zero, and missing when the price is zero. *)
Theorem zero_area_price_per_m2 (csv : list RawRow) (l : Listing) :
  In l (load_data str_to_float log1p csv) ->
  (area l =? 0)%float = true ->
  (PrimFloat.is_finite (price l) = true -> (price l =? 0)%float = false ->
   PrimFloat.is_infinity (price_per_m2 l) = true)
  /\ ((price l =? 0)%float = true -> isna (price_per_m2 l) = true).
Proof.
  intros Hin Ha. apply load_data_In in Hin.
  destruct Hin as [rr (_ & -> & _ & _)]. simpl in *.
  apply F64More.div_by_zero. exact Ha.
Qed.

End LoaderMore.

Lemma zero_area_price_per_m2_witness :
  In (feature_engineering sample_log1p
        (coerce_num_cols parse_unsigned raw_zero_area))
     (sample_load [raw_zero_area])
  /\ PrimFloat.is_infinity
       (price_per_m2 (feature_engineering sample_log1p
                        (coerce_num_cols parse_unsigned raw_zero_area)))
     = true.
Proof.
  assert (Hin : In (feature_engineering sample_log1p
                      (coerce_num_cols parse_unsigned raw_zero_area))
                  (sample_load [raw_zero_area])) by (left; reflexivity).
  split; [exact Hin|].
  exact (proj1 (zero_area_price_per_m2 parse_unsigned sample_log1p
                  _ _ Hin eq_refl) eq_refl eq_refl).
Defined.

(** ** More on the filter *)

Lemma in_range_within (x : float) (inner outer : float * float) :
  range_within inner outer -> in_range x inner -> in_range x outer.
Proof.
  intros [Hlo Hhi] [H1 H2]. split.
  - exact (F64.leb_trans _ _ _ Hlo H1).
  - exact (F64.leb_trans _ _ _ H2 Hhi).
Qed.

Lemma filter_mask_narrower (S S' : FilterSpec) (l : Listing) :
  narrower S S' -> filter_mask S l = true -> filter_mask S' l = true.
Proof.
  intros (Hc & Ht & Hr & Hf & Hp & Ha & Hb & Hh).
  rewrite !filter_mask_spec.
  intros (Ic & It & Ir & If & Rp & Ra & Rb & Rh).
  repeat split;
    solve [ apply Hc, Ic | apply Ht, It | apply Hr, Ir | apply Hf, If
          | apply (in_range_within _ _ _ Hp Rp)
          | apply (in_range_within _ _ _ Ha Ra)
          | apply (in_range_within _ _ _ Hb Rb)
          | apply (in_range_within _ _ _ Hh Rh) ].
Qed.

(** X5: filtering a filtered view again with the same selection changes
    nothing. *)
Theorem df_filtered_idempotent (T : DataFrame) (S : FilterSpec) :
  df_filtered (df_filtered T S) S = df_filtered T S.
Proof. apply filter_idem. Qed.

(** X6: narrowing a selection never adds rows: the view of the narrower
    selection is the narrower selection applied to the wider view, so its
    rows are rows of the wider view, in the same order. *)
Theorem df_filtered_narrower (T : DataFrame) (S S' : FilterSpec) :
  narrower S S' ->
  df_filtered T S = df_filtered (df_filtered T S') S
  /\ Subseq (df_filtered T S) (df_filtered T S').
Proof.
  intros H.
  assert (E : df_filtered T S = df_filtered (df_filtered T S') S).
  { unfold df_filtered. symmetry. apply filter_filter_implied.
    intros l. apply filter_mask_narrower, H. }
  split; [exact E|]. rewrite E. apply filter_Subseq.
Qed.

(** X7: a multiselect left without any value empties the view. *)
Theorem df_filtered_empty_selection (T : DataFrame) (S : FilterSpec) :
  cities S = [] \/ prop_types S = [] \/ rent_opts S = [] \/ furn_opts S = [] ->
  df_filtered T S = [].
Proof.
  intros H. unfold df_filtered. apply filter_none.
  apply Forall_forall. intros l _. unfold filter_mask.
  destruct H as [H|[H|[H|H]]]; rewrite H; simpl;
    rewrite ?andb_false_r; reflexivity.
Qed.

Lemma filter_mask_notna (S : FilterSpec) (l : Listing) :
  filter_mask S l = true ->
  isna (price l) = false /\ isna (area l) = false
  /\ isna (bedrooms l) = false /\ isna (bathrooms l) = false.
Proof.
  intros H. apply filter_mask_spec in H.
  destruct H as (_ & _ & _ & _ & [Hp _] & [Ha _] & [Hb _] & [Hh _]).
  repeat split; eapply F64More.leb_notna; eassumption.
Qed.

(** X8: no selection shows a row whose price, area, bedrooms or bathrooms is
    missing: a comparison with NaN is false. *)
Theorem df_filtered_notna (T : DataFrame) (S : FilterSpec) (l : Listing) :
  In l (df_filtered T S) ->
  isna (price l) = false /\ isna (area l) = false
  /\ isna (bedrooms l) = false /\ isna (bathrooms l) = false.
Proof.
  intros H. apply filter_In in H. destruct H as [_ H].
  apply filter_mask_notna in H. exact H.
Qed.

(** X9: a CSV row with a price and an area whose bedrooms or bathrooms cell
    failed numeric coercion is kept by the loader, yet no selection of the
    sidebar ever shows it. *)
Theorem failed_rooms_never_shown
  (str_to_float : string -> option float) (log1p : float -> float)
  (csv : list RawRow) (rr : RawRow) :
  In rr csv ->
  isna (to_numeric str_to_float (raw_price rr)) = false ->
  isna (to_numeric str_to_float (raw_area rr)) = false ->
  fails_coercion str_to_float (raw_bedrooms rr)
  \/ fails_coercion str_to_float (raw_bathrooms rr) ->
  let l := feature_engineering log1p (coerce_num_cols str_to_float rr) in
  In l (load_data str_to_float log1p csv)
  /\ forall S : FilterSpec,
       ~ In l (df_filtered (load_data str_to_float log1p csv) S).
Proof.
  intros Hrr Hp Ha H l. split.
  - apply load_data_In. exists rr. auto.
  - intros S Hin. apply filter_In in Hin. destruct Hin as [_ Hm].
    apply filter_mask_notna in Hm. destruct Hm as (_ & _ & Hb & Hh).
    simpl in Hb, Hh.
    destruct H as [H|H]; rewrite (to_numeric_fails _ _ H) in *; discriminate.
Qed.

(** X10: when the two ends of a range are equal, the rows shown have exactly
    that value (as numbers: 0 and -0 are equal). *)
Theorem df_filtered_point_range (T : DataFrame) (S : FilterSpec) (l : Listing) :
  In l (df_filtered T S) ->
  (fst (sel_price S) = snd (sel_price S) ->
   (price l =? fst (sel_price S))%float = true)
  /\ (fst (sel_area S) = snd (sel_area S) ->
      (area l =? fst (sel_area S))%float = true)
  /\ (fst (sel_bed S) = snd (sel_bed S) ->
      (bedrooms l =? fst (sel_bed S))%float = true)
  /\ (fst (sel_bath S) = snd (sel_bath S) ->
      (bathrooms l =? fst (sel_bath S))%float = true).
Proof.
  intros H. apply filter_In in H. destruct H as [_ H].
  apply filter_mask_spec in H.
  destruct H as (_ & _ & _ & _ & Hp & Ha & Hb & Hh).
  repeat split; intros E;
    match goal with
    | R : in_range ?x ?sel |- (?x =? fst ?sel)%float = true =>
        apply between_in_range in R; destruct sel as [lo hi];
        simpl in E; subst hi; rewrite F64More.between_point in R; exact R
    end.
Qed.

(** X11: two selections can be applied in either order, and the comparison
    selector can be applied before or after the filter. *)
Theorem df_filtered_commute (T : DataFrame) (S1 S2 : FilterSpec)
  (ids : list string) :
  df_filtered (df_filtered T S1) S2 = df_filtered (df_filtered T S2) S1
  /\ comp_df (df_filtered T S1) ids = df_filtered (comp_df T ids) S1.
Proof.
  unfold df_filtered, comp_df. split; apply filter_comm.
Qed.

Lemma narrower_villas_all : narrower select_villas select_all.
Proof.
  unfold narrower, range_within, incl. simpl.
  repeat split; try reflexivity; intros a H; tauto.
Qed.

Lemma df_filtered_narrower_witness :
  narrower select_villas select_all
  /\ Subseq (df_filtered sample_view select_villas)
       (df_filtered sample_view select_all).
Proof.
  split; [exact narrower_villas_all|].
  exact (proj2 (df_filtered_narrower sample_view _ _ narrower_villas_all)).
Defined.

Lemma df_filtered_empty_selection_witness :
  cities select_no_city = [] /\ df_filtered sample_view select_no_city = [].
Proof.
  assert (H : cities select_no_city = []) by reflexivity.
  split; [exact H|].
  exact (df_filtered_empty_selection sample_view select_no_city (or_introl H)).
Defined.

Lemma df_filtered_notna_witness :
  In listing_A (df_filtered sample_view select_all)
  /\ isna (bedrooms listing_A) = false.
Proof.
  assert (H : In listing_A (df_filtered sample_view select_all))
    by (left; reflexivity).
  split; [exact H|].
  exact (proj1 (proj2 (proj2 (df_filtered_notna _ _ _ H)))).
Defined.

Lemma failed_rooms_never_shown_witness :
  In raw_bad_bedrooms [raw_A; raw_bad_bedrooms]
  /\ fails_coercion parse_unsigned (raw_bedrooms raw_bad_bedrooms)
  /\ In (feature_engineering sample_log1p
           (coerce_num_cols parse_unsigned raw_bad_bedrooms))
        (sample_load [raw_A; raw_bad_bedrooms])
  /\ ~ In (feature_engineering sample_log1p
             (coerce_num_cols parse_unsigned raw_bad_bedrooms))
          (df_filtered (sample_load [raw_A; raw_bad_bedrooms]) select_all).
Proof.
  assert (Hin : In raw_bad_bedrooms [raw_A; raw_bad_bedrooms])
    by (right; left; reflexivity).
  assert (Hf : fails_coercion parse_unsigned (raw_bedrooms raw_bad_bedrooms))
    by (exists "two"; split; reflexivity).
  pose proof (failed_rooms_never_shown parse_unsigned sample_log1p
                [raw_A; raw_bad_bedrooms] raw_bad_bedrooms Hin
                eq_refl eq_refl (or_introl Hf)) as [Hk Hs].
  split; [exact Hin|]. split; [exact Hf|]. split; [exact Hk|].
  exact (Hs select_all).
Defined.

Lemma df_filtered_point_range_witness :
  In listing_A (df_filtered sample_view select_villas)
  /\ (price listing_A =? 100)%float = true.
Proof.
  assert (H : In listing_A (df_filtered sample_view select_villas))
    by (left; reflexivity).
  split; [exact H|].
  exact (proj1 (df_filtered_point_range _ _ _ H) eq_refl).
Defined.

(** ** Sidebar widgets *)

Lemma first_seen_In (seen values : list string) (x : string) :
  In x (first_seen seen values) <-> In x values /\ ~ In x seen.
Proof.
  revert seen. induction values as [|k ks IH]; intros seen; simpl.
  - tauto.
  - destruct (isin k seen) eqn:E.
    + apply isin_In in E. rewrite IH. split.
      * intros [H1 H2]. auto.
      * intros [[->|H1] H2]; [contradiction|auto].
    + assert (Hk : ~ In k seen).
      { intros H. apply isin_In in H. congruence. }
      simpl. rewrite IH. simpl. split.
      * intros [->|[H1 H2]]; [auto|]. split; [auto|]. tauto.
      * intros [[->|H1] H2]; [auto|].
        destruct (string_dec k x) as [->|Hne]; [auto|]. right. tauto.
Qed.

Lemma first_seen_NoDup (seen values : list string) :
  NoDup (first_seen seen values).
Proof.
  revert seen. induction values as [|k ks IH]; intros seen; simpl.
  - constructor.
  - destruct (isin k seen); [apply IH|].
    constructor; [|apply IH].
    rewrite first_seen_In. simpl. tauto.
Qed.

Lemma unique_In (values : list string) (x : string) :
  In x (unique values) <-> In x values.
Proof. unfold unique. rewrite first_seen_In. simpl. tauto. Qed.

Lemma sorted_In (values : list string) (x : string) :
  In x (sorted values) <-> In x values.
Proof.
  unfold sorted.
  pose proof (insertion_sort_perm String.ltb values) as Hperm. split.
  - apply Permutation_in, Hperm.
  - apply Permutation_in, Permutation_sym, Hperm.
Qed.

Lemma sorted_strict (values : list string) :
  NoDup values ->
  StronglySorted (fun a b => String.ltb a b = true) (sorted values).
Proof.
  intros Hnd. unfold sorted.
  assert (Hnd' : NoDup (insertion_sort String.ltb values)).
  { apply (Permutation_NoDup
             (Permutation_sym (insertion_sort_perm String.ltb values))), Hnd. }
  assert (Hs : StronglySorted (fun a b => String.ltb b a = false)
                 (insertion_sort String.ltb values)).
  { apply (insertion_sort_sorted String.ltb (fun _ => True)).
    - intros a b _ _. apply string_ltb_asym.
    - intros a b c _ _ _. apply string_ltb_ntrans.
    - apply Forall_forall. trivial. }
  apply (StronglySorted_impl_in _ _ _
           (fun a b _ _ (H : String.ltb b a = false /\ a <> b) =>
              string_ltb_total a b (proj2 H) (proj1 H))).
  apply StronglySorted_NoDup_strict; assumption.
Qed.

Lemma options_In (c : text_col) (df : DataFrame) (x : string) :
  In x (options c df) <-> In x (text_column c df).
Proof. unfold options. rewrite sorted_In, unique_In. reflexivity. Qed.

(** X12: the options of a multiselect are the values of the column, each once,
    in strictly ascending order; as they are the default too, the default
    lets every row through on that column. *)
Theorem options_spec (c : text_col) (df : DataFrame) :
  StronglySorted (fun a b => String.ltb a b = true) (options c df)
  /\ (forall x, In x (options c df) <-> In x (text_column c df))
  /\ (forall l, In l df -> isin (text c l) (options c df) = true).
Proof.
  split; [|split].
  - apply sorted_strict, first_seen_NoDup.
  - apply options_In.
  - intros l Hl. apply isin_In, options_In. unfold text_column.
    apply in_map. exact Hl.
Qed.

(** *** Least and greatest value of a column *)

Section Reduce.

(** [better a v]: the accumulator [a] is kept against [v];
    [R m x]: [m] is at least as good as [x]. *)
Variable better : float -> float -> bool.
Variable R : float -> float -> Prop.
Hypothesis better_R : forall a v, better a v = true -> R a v.
Hypothesis worse_R :
  forall a v, isna a = false -> isna v = false -> better a v = false -> R v a.
Hypothesis R_refl : forall a, isna a = false -> R a a.
Hypothesis R_trans : forall a b c, R a b -> R b c -> R a c.

Lemma reduce_spec (rest : list float) (acc : float) :
  isna acc = false -> Forall (fun v => isna v = false) rest ->
  let m := fold_left (fun a v => if better a v then a else v) rest acc in
  In m (acc :: rest) /\ R m acc /\ Forall (fun v => R m v) rest.
Proof.
  revert acc. induction rest as [|v rest IH]; intros acc Hacc Hrest; simpl.
  - split; [auto|]. split; [apply R_refl, Hacc|constructor].
  - inversion Hrest as [|? ? Hv Hrest']; subst.
    destruct (better acc v) eqn:E.
    + destruct (IH acc Hacc Hrest') as (Hin & Hm & Hall).
      split; [destruct Hin as [<-|Hin]; auto|].
      split; [exact Hm|]. constructor; [|exact Hall].
      exact (R_trans _ _ _ Hm (better_R _ _ E)).
    + destruct (IH v Hv Hrest') as (Hin & Hm & Hall).
      split; [destruct Hin as [<-|Hin]; auto|].
      split; [|constructor; assumption].
      exact (R_trans _ _ _ Hm (worse_R _ _ Hacc Hv E)).
Qed.

End Reduce.

Lemma fill_notna (fill : float) (xs : list float) :
  isna fill = false ->
  Forall (fun v => isna v = false)
    (map (fun x => if isna x then fill else x) xs).
Proof.
  intros Hf. apply Forall_forall. intros v Hv.
  apply in_map_iff in Hv. destruct Hv as [x [<- _]].
  destruct (isna x) eqn:E; assumption.
Qed.

Lemma count_notna_pos (xs : list float) (x : float) :
  In x xs -> isna x = false -> (0 <? count_notna xs)%nat = true.
Proof.
  intros Hin Hx. apply Nat.ltb_lt. unfold count_notna.
  assert (H : In x (filter (fun x => negb (isna x)) xs)).
  { apply filter_In. rewrite Hx. auto. }
  destruct (filter (fun x => negb (isna x)) xs); [contradiction|simpl; lia].
Qed.

Lemma np_min_spec (values : list float) :
  values <> [] -> Forall (fun v => isna v = false) values ->
  In (np_min values) values
  /\ Forall (fun v => (np_min values <=? v)%float = true) values.
Proof.
  destruct values as [|a rest]; [congruence|]. intros _ H.
  inversion H as [|? ? Ha Hrest]; subst. unfold np_min.
  destruct (reduce_spec (fun a v => (a <? v)%float)
              (fun m x => (m <=? x)%float = true)
              F64More.ltb_leb
              (fun a v Ha Hv E => F64.ltb_false_leb a v Ha Hv E)
              F64More.leb_refl F64.leb_trans rest a Ha Hrest)
    as (Hin & Hm & Hall).
  split; [exact Hin|]. constructor; assumption.
Qed.

Lemma np_max_spec (values : list float) :
  values <> [] -> Forall (fun v => isna v = false) values ->
  In (np_max values) values
  /\ Forall (fun v => (v <=? np_max values)%float = true) values.
Proof.
  destruct values as [|a rest]; [congruence|]. intros _ H.
  inversion H as [|? ? Ha Hrest]; subst. unfold np_max.
  destruct (reduce_spec (fun a v => (v <? a)%float)
              (fun m x => (x <=? m)%float = true)
              (fun a v E => F64More.ltb_leb v a E)
              (fun a v Ha Hv E => F64.ltb_false_leb v a Hv Ha E)
              F64More.leb_refl
              (fun a b c Hab Hbc => F64.leb_trans c b a Hbc Hab)
              rest a Ha Hrest)
    as (Hin & Hm & Hall).
  split; [exact Hin|]. constructor; assumption.
Qed.

(** Every number of a column lies between the column's least and greatest
    value. *)
Lemma series_min_max_range (xs : list float) (x : float) :
  In x xs -> isna x = false -> in_range x (series_min xs, series_max xs).
Proof.
  intros Hin Hx. unfold in_range, series_min, series_max. simpl fst. simpl snd.
  rewrite (count_notna_pos xs x Hin Hx).
  set (lo := map (fun x => if isna x then PrimFloat.infinity else x) xs).
  set (hi := map (fun x => if isna x then PrimFloat.neg_infinity else x) xs).
  assert (Hlo : In x lo).
  { apply in_map_iff. exists x. rewrite Hx. auto. }
  assert (Hhi : In x hi).
  { apply in_map_iff. exists x. rewrite Hx. auto. }
  split.
  - assert (Hne : lo <> []) by (intros E; rewrite E in Hlo; contradiction).
    destruct (np_min_spec lo Hne (fill_notna PrimFloat.infinity xs eq_refl))
      as [_ H].
    rewrite Forall_forall in H. apply H, Hlo.
  - assert (Hne : hi <> []) by (intros E; rewrite E in Hhi; contradiction).
    destruct (np_max_spec hi Hne
                (fill_notna PrimFloat.neg_infinity xs eq_refl)) as [_ H].
    rewrite Forall_forall in H. apply H, Hhi.
Qed.

(** *** The defaults of the sidebar *)

Lemma is_finite_notna (x : float) :
  PrimFloat.is_finite x = true -> isna x = false.
Proof.
  unfold PrimFloat.is_finite, isna. intros H.
  apply negb_true_iff, orb_false_iff in H. tauto.
Qed.

Lemma py_int_finite (x : float) :
  PrimFloat.is_finite x = true -> exists z, py_int x = Some z.
Proof.
  intros F. unfold py_int.
  destruct (F64.is_finite_cases x F) as [[s E]|(s & m & e & E)]; rewrite E;
    eexists; reflexivity.
Qed.

Lemma series_no_number (xs : list float) :
  Forall (fun x => isna x = true) xs ->
  series_min xs = PrimFloat.nan /\ series_max xs = PrimFloat.nan.
Proof.
  intros H. unfold series_min, series_max, count_notna.
  rewrite (filter_none (fun x => negb (isna x)) xs).
  - split; reflexivity.
  - apply Forall_forall. rewrite Forall_forall in H. intros x Hx.
    rewrite (H x Hx). reflexivity.
Qed.

Lemma fill_id (fill : float) (xs : list float) :
  Forall (fun x => isna x = false) xs ->
  map (fun x => if isna x then fill else x) xs = xs.
Proof.
  intros H. rewrite <- (map_id xs) at 2. apply map_ext_in. intros x Hx.
  rewrite Forall_forall in H. rewrite (H x Hx). reflexivity.
Qed.

Lemma series_min_max_In (xs : list float) :
  xs <> [] -> Forall (fun x => isna x = false) xs ->
  In (series_min xs) xs /\ In (series_max xs) xs.
Proof.
  intros Hne H. unfold series_min, series_max.
  destruct xs as [|a rest] eqn:E; [congruence|]. rewrite <- E in *.
  assert (Ha : In a xs) by (rewrite E; left; reflexivity).
  rewrite (count_notna_pos xs a Ha (proj1 (Forall_forall _ _) H a Ha)).
  rewrite !fill_id by exact H.
  split; [apply np_min_spec | apply np_max_spec]; assumption.
Qed.

Lemma default_selection_Some (df : DataFrame) (S : FilterSpec) :
  default_selection df = Some S ->
  exists price_min price_max area_min area_max,
    py_int (series_min (column Price df)) = Some price_min
    /\ py_int (series_max (column Price df)) = Some price_max
    /\ py_int (series_min (column Area df)) = Some area_min
    /\ py_int (series_max (column Area df)) = Some area_max
    /\ cities S = options City df /\ prop_types S = options PropType df
    /\ rent_opts S = options Rent df /\ furn_opts S = options Furnished df
    /\ sel_price S = (float_of_int price_min, float_of_int price_max)
    /\ sel_area S = (float_of_int area_min, float_of_int area_max)
    /\ sel_bed S = (series_min (column Bedrooms df),
                    series_max (column Bedrooms df))
    /\ sel_bath S = (series_min (column Bathrooms df),
                     series_max (column Bathrooms df)).
Proof.
  unfold default_selection.
  destruct (py_int (series_min (column Price df))) as [pmin|]; [|discriminate].
  destruct (py_int (series_max (column Price df))) as [pmax|]; [|discriminate].
  destruct (py_int (series_min (column Area df))) as [amin|]; [|discriminate].
  destruct (py_int (series_max (column Area df))) as [amax|]; [|discriminate].
  intros E. injection E as <-. exists pmin, pmax, amin, amax.
  repeat split.
Qed.

(** X13: the script cannot set up its sliders on a table without any price (an
    empty table above all): [int] of the missing minimum raises.  On a
    table that is not empty and whose prices and areas are finite, no
    [int] raises and the values handed to the widgets are computed. *)
Theorem default_selection_defined (df : DataFrame) :
  ((forall l, In l df -> isna (price l) = true) ->
   default_selection df = None)
  /\ (df <> [] ->
      (forall l, In l df ->
                 PrimFloat.is_finite (price l) = true
                 /\ PrimFloat.is_finite (area l) = true) ->
      exists S, default_selection df = Some S).
Proof.
  split.
  - intros H. unfold default_selection.
    destruct (series_no_number (column Price df)) as [E _].
    { apply Forall_forall. intros x Hx. apply in_map_iff in Hx.
      destruct Hx as [l [<- Hl]]. apply H, Hl. }
    rewrite E. reflexivity.
  - intros Hne H.
    assert (Hcol : forall c, c = Price \/ c = Area ->
              exists lo hi, py_int (series_min (column c df)) = Some lo
                            /\ py_int (series_max (column c df)) = Some hi).
    { intros c Hc.
      assert (Hfin : forall x, In x (column c df) ->
                               PrimFloat.is_finite x = true).
      { intros x Hx. apply in_map_iff in Hx. destruct Hx as [l [<- Hl]].
        destruct Hc as [-> | ->]; apply (H l Hl). }
      destruct (series_min_max_In (column c df)) as [Hlo Hhi].
      - destruct df; [congruence|discriminate].
      - apply Forall_forall. intros x Hx. apply is_finite_notna, Hfin, Hx.
      - destruct (py_int_finite _ (Hfin _ Hlo)) as [lo Elo].
        destruct (py_int_finite _ (Hfin _ Hhi)) as [hi Ehi].
        exists lo, hi. auto. }
    destruct (Hcol Price (or_introl eq_refl)) as (pmin & pmax & Ep1 & Ep2).
    destruct (Hcol Area (or_intror eq_refl)) as (amin & amax & Ea1 & Ea2).
    unfold default_selection. rewrite Ep1, Ep2, Ea1, Ea2.
    eexists. reflexivity.
Qed.


(** X15: the default price range ends at the integer part of the greatest
    price, so a row priced above that integer is hidden while every widget
    is at its default; likewise for the area. *)
Theorem default_hides_above_int_max (df : DataFrame) (S : FilterSpec)
  (l : Listing) :
  default_selection df = Some S ->
  (forall price_max,
      py_int (series_max (column Price df)) = Some price_max ->
      (float_of_int price_max <? price l)%float = true ->
      ~ In l (df_filtered df S))
  /\ (forall area_max,
         py_int (series_max (column Area df)) = Some area_max ->
         (float_of_int area_max <? area l)%float = true ->
         ~ In l (df_filtered df S)).
Proof.
  intros HS. apply default_selection_Some in HS.
  destruct HS as (pmin & pmax & amin & amax & _ & Ep & _ & Ea
                  & _ & _ & _ & _ & Esp & Esa & _ & _).
  split.
  - intros z Ez Hlt Hin. rewrite Ep in Ez. injection Ez as <-.
    apply filter_In in Hin. destruct Hin as [_ Hm].
    apply filter_mask_spec in Hm.
    destruct Hm as (_ & _ & _ & _ & [_ Hp] & _).
    rewrite Esp in Hp. simpl in Hp.
    rewrite (F64More.ltb_not_leb _ _ Hlt) in Hp. discriminate Hp.
  - intros z Ez Hlt Hin. rewrite Ea in Ez. injection Ez as <-.
    apply filter_In in Hin. destruct Hin as [_ Hm].
    apply filter_mask_spec in Hm.
    destruct Hm as (_ & _ & _ & _ & _ & [_ Hp] & _).
    rewrite Esa in Hp. simpl in Hp.
    rewrite (F64More.ltb_not_leb _ _ Hlt) in Hp. discriminate Hp.
Qed.

Lemma default_selection_half_view :
  default_selection half_view
  = Some {| cities := ["Cairo"];
            prop_types := ["villa"];
            rent_opts := ["sale"];
            furn_opts := ["no"];
            sel_price := (50, 100)%float;
            sel_area := (5, 10)%float;
            sel_bed := (1, 2)%float;
            sel_bath := (1, 1)%float |}.
Proof. reflexivity. Qed.

(** The listing priced 100.5 is in the table and hidden by the default
    range, which ends at 100. *)
Lemma default_hides_above_int_max_witness :
  In listing_half half_view
  /\ py_int (series_max (column Price half_view)) = Some 100%Z
  /\ ~ In listing_half
         (df_filtered half_view
            {| cities := ["Cairo"];
               prop_types := ["villa"];
               rent_opts := ["sale"];
               furn_opts := ["no"];
               sel_price := (50, 100)%float;
               sel_area := (5, 10)%float;
               sel_bed := (1, 2)%float;
               sel_bath := (1, 1)%float |}).
Proof.
  split; [left; reflexivity|]. split; [reflexivity|].
  exact (proj1 (default_hides_above_int_max half_view _ listing_half
                  default_selection_half_view) 100%Z eq_refl eq_refl).
Defined.

Lemma default_selection_defined_witness :
  default_selection [] = None
  /\ exists S, default_selection half_view = Some S.
Proof.
  split.
  - apply (proj1 (default_selection_defined [])). intros l [].
  - apply (proj2 (default_selection_defined half_view)).
    + discriminate.
    + intros l [<-|[<-|[]]]; split; reflexivity.
Defined.


(** ** More on the comparison selector *)

Lemma map_filter_swap {A B : Type} (f : A -> B) (g : B -> bool) (l : list A) :
  map f (filter (fun x => g (f x)) l) = filter g (map f l).
Proof.
  induction l as [|x l IH]; [reflexivity|]. simpl.
  destruct (g (f x)); simpl; rewrite IH; reflexivity.
Qed.

(** X16: the comparison multiselect offers every id of the view once.  When the
    ids of the view are all different, a selection among the options
    resolves to exactly one row per selected id. *)
Theorem comp_df_one_row_per_id (view : DataFrame) (ids : list string) :
  (NoDup (compare_options view)
   /\ forall x, In x (compare_options view) <-> In x (ad_ids view))
  /\ (NoDup (ad_ids view) -> NoDup ids -> incl ids (compare_options view) ->
      Permutation (ad_ids (comp_df view ids)) ids
      /\ List.length (comp_df view ids) = List.length ids).
Proof.
  split.
  - split; [apply first_seen_NoDup | apply unique_In].
  - intros Hv Hi Hincl.
    assert (E : ad_ids (comp_df view ids)
                = filter (fun x => isin x ids) (ad_ids view)).
    { unfold ad_ids, comp_df.
      apply (map_filter_swap (fun r : Listing => ad_id r)
               (fun x => isin x ids)). }
    assert (P : Permutation (ad_ids (comp_df view ids)) ids).
    { rewrite E. apply NoDup_Permutation.
      - apply NoDup_filter, Hv.
      - exact Hi.
      - intros x. rewrite filter_In, isin_In. split; [tauto|].
        intros Hx. split; [|exact Hx]. apply unique_In, Hincl, Hx. }
    split; [exact P|].
    apply Permutation_length in P. unfold ad_ids in P.
    rewrite length_map in P. exact P.
Qed.

Lemma comp_df_one_row_per_id_witness :
  NoDup (ad_ids sample_view) /\ NoDup ["B"; "A"]
  /\ incl ["B"; "A"] (compare_options sample_view)
  /\ List.length (comp_df sample_view ["B"; "A"]) = 2%nat.
Proof.
  assert (Hv : NoDup (ad_ids sample_view)).
  { repeat constructor; simpl; intuition discriminate. }
  assert (Hi : NoDup ["B"; "A"]).
  { repeat constructor; simpl; intuition discriminate. }
  assert (Hincl : incl ["B"; "A"] (compare_options sample_view)).
  { intros x Hx. simpl in *. tauto. }
  split; [exact Hv|]. split; [exact Hi|]. split; [exact Hincl|].
  exact (proj2 (proj2 (comp_df_one_row_per_id sample_view ["B"; "A"])
                  Hv Hi Hincl)).
Defined.

(** ** Rankings *)

Lemma StronglySorted_app {A : Type} (R : A -> A -> Prop) (l1 l2 : list A) :
  StronglySorted R l1 -> StronglySorted R l2 ->
  (forall a b, In a l1 -> In b l2 -> R a b) ->
  StronglySorted R (l1 ++ l2).
Proof.
  intros H1 H2 H. induction H1 as [|a l1 H1 IH Ha]; simpl; [exact H2|].
  constructor.
  - apply IH. intros x y Hx Hy. apply H; [right; exact Hx|exact Hy].
  - apply Forall_app. split; [exact Ha|].
    apply Forall_forall. intros y Hy. apply H; [left; reflexivity|exact Hy].
Qed.

Lemma StronglySorted_app_cross {A : Type} (R : A -> A -> Prop)
  (l1 l2 : list A) :
  StronglySorted R (l1 ++ l2) -> forall a b, In a l1 -> In b l2 -> R a b.
Proof.
  induction l1 as [|x l1 IH]; simpl; intros H a b Ha Hb; [contradiction|].
  inversion H as [|? ? Hs Hx]; subst. destruct Ha as [<-|Ha].
  - rewrite Forall_forall in Hx. apply Hx, in_or_app. right. exact Hb.
  - apply IH; assumption.
Qed.

Lemma StronglySorted_app_l {A : Type} (R : A -> A -> Prop) (l1 l2 : list A) :
  StronglySorted R (l1 ++ l2) -> StronglySorted R l1.
Proof.
  induction l1 as [|x l1 IH]; simpl; intros H; [constructor|].
  inversion H as [|? ? Hs Hx]; subst. constructor; [apply IH, Hs|].
  apply Forall_app in Hx. apply Hx.
Qed.

Lemma StronglySorted_app_r {A : Type} (R : A -> A -> Prop) (l1 l2 : list A) :
  StronglySorted R (l1 ++ l2) -> StronglySorted R l2.
Proof.
  induction l1 as [|x l1 IH]; simpl; intros H; [exact H|].
  inversion H as [|? ? Hs Hx]; subst. apply IH, Hs.
Qed.

(** The first [n] of a sorted list rank before all the others. *)
Lemma head_ranks_first {A : Type} (R : A -> A -> Prop) (n : nat) (l : list A) :
  StronglySorted R l ->
  StronglySorted R (head n l)
  /\ forall a b, In a (head n l) -> In b (skipn n l) -> R a b.
Proof.
  intros H. unfold head. rewrite <- (firstn_skipn n l) in H. split.
  - exact (StronglySorted_app_l _ _ _ H).
  - exact (StronglySorted_app_cross _ _ _ H).
Qed.

Section SortDescBy.

Context {A : Type}.
Variable key : A -> float.

Lemma sort_desc_by_perm (rows : list A) :
  Permutation (sort_desc_by key rows) rows.
Proof.
  unfold sort_desc_by.
  eapply perm_trans; [|apply (filter_split_perm (fun x => isna (key x)))].
  apply Permutation_app_tail.
  eapply perm_trans; [apply Permutation_sym, Permutation_rev|].
  eapply perm_trans; [apply insertion_sort_perm|].
  apply Permutation_sym, Permutation_rev.
Qed.

Lemma sort_desc_by_sorted (rows : list A) :
  StronglySorted (desc_na_last key) (sort_desc_by key rows).
Proof.
  unfold sort_desc_by.
  set (less := fun a b : A => (key a <? key b)%float).
  set (nn := filter (fun x => negb (isna (key x))) rows).
  set (nans := filter (fun x => isna (key x)) rows).
  assert (Hnn : Forall (fun x => isna (key x) = false) nn).
  { apply Forall_forall. intros x H. apply filter_In in H.
    apply negb_true_iff, H. }
  assert (Hnans : Forall (fun x => isna (key x) = true) nans).
  { apply Forall_forall. intros x H. apply filter_In in H. apply H. }
  pose proof (Permutation_sym (insertion_sort_perm less (rev nn))) as Hperm.
  assert (Hsrt : Forall (fun x => isna (key x) = false)
                   (rev (insertion_sort less (rev nn)))).
  { apply Forall_rev. apply (Permutation_Forall Hperm). apply Forall_rev, Hnn. }
  apply StronglySorted_app.
  - apply (StronglySorted_impl_in (fun a b => less a b = false)).
    + rewrite Forall_forall in Hsrt. intros a b Ha Hb H. right.
      split; [apply Hsrt, Ha|]. apply F64.ltb_false_leb; auto.
    + apply (StronglySorted_rev (fun a b => less b a = false)).
      apply (insertion_sort_sorted less (fun x => isna (key x) = false)).
      * intros a b _ _. apply F64.ltb_asym.
      * intros a b c. apply F64.ltb_false_trans.
      * apply Forall_rev, Hnn.
  - clear - Hnans. induction Hnans as [|x l Hx Hl IH]; constructor; [exact IH|].
    apply Forall_forall. intros y Hy. left.
    rewrite Forall_forall in Hl. apply Hl, Hy.
  - intros a b _ Hb. left. rewrite Forall_forall in Hnans. apply Hnans, Hb.
Qed.

End SortDescBy.

(** X18: the table of the most expensive listings holds the 20 rows of the view
    that rank first by price (all rows when the view has fewer), the
    dearest first and rows without a price last: every row left out is
    priced no higher than any row shown. *)
Theorem most_expensive_spec (view : DataFrame) :
  List.length (most_expensive view) = Nat.min 20 (List.length view)
  /\ StronglySorted (desc_na_last (fun r : Listing => price r))
       (most_expensive view)
  /\ exists rest,
       Permutation (most_expensive view ++ rest) view
       /\ forall a b, In a (most_expensive view) -> In b rest ->
                      desc_na_last (fun r : Listing => price r) a b.
Proof.
  unfold most_expensive.
  set (s := sort_desc_by (fun r : Listing => price r) view).
  pose proof (sort_desc_by_perm (fun r : Listing => price r) view) as Hperm.
  pose proof (sort_desc_by_sorted (fun r : Listing => price r) view) as Hs.
  destruct (head_ranks_first _ 20 s Hs) as [Hhead Hcross].
  split; [|split].
  - unfold head. rewrite length_firstn. f_equal.
    exact (Permutation_length Hperm).
  - exact Hhead.
  - exists (skipn 20 s). split; [|exact Hcross].
    unfold head. rewrite firstn_skipn. exact Hperm.
Qed.

(** *** Counts per city *)

Lemma count_of_pos (v : string) (values : list string) :
  In v values -> (1 <= count_of v values)%nat.
Proof.
  intros H. unfold count_of.
  assert (Hin : In v (filter (String.eqb v) values)).
  { apply filter_In. split; [exact H|apply String.eqb_refl]. }
  destruct (filter (String.eqb v) values); [contradiction|simpl; lia].
Qed.

Lemma value_counts_perm (values : list string) :
  Permutation (value_counts values)
    (map (fun v => (v, count_of v values)) (unique values)).
Proof.
  unfold value_counts.
  eapply perm_trans; [apply Permutation_sym, Permutation_rev|].
  eapply perm_trans; [apply insertion_sort_perm|].
  apply Permutation_sym, Permutation_rev.
Qed.

Lemma value_counts_In (values : list string) (v : string) (n : nat) :
  In (v, n) (value_counts values) <-> In v values /\ n = count_of v values.
Proof.
  pose proof (value_counts_perm values) as Hperm.
  rewrite <- unique_In. split.
  - intros H. apply (Permutation_in _ Hperm) in H.
    apply in_map_iff in H. destruct H as [k [E Hk]].
    injection E as -> <-. auto.
  - intros [Hv ->]. apply (Permutation_in _ (Permutation_sym Hperm)).
    apply in_map_iff. exists v. auto.
Qed.

Lemma value_counts_sorted (values : list string) :
  StronglySorted (fun a b : string * nat => (snd b <= snd a)%nat)
    (value_counts values).
Proof.
  unfold value_counts.
  set (less := fun a b : string * nat => (snd a <? snd b)%nat).
  apply (StronglySorted_impl_in (fun a b => less a b = false)).
  - intros a b _ _ H. apply Nat.ltb_ge in H. exact H.
  - apply (StronglySorted_rev (fun a b => less b a = false)).
    apply (insertion_sort_sorted less (fun _ => True)).
    + intros a b _ _ H. apply Nat.ltb_lt in H. apply Nat.ltb_ge. lia.
    + intros a b c _ _ _ H1 H2. apply Nat.ltb_ge in H1, H2.
      apply Nat.ltb_ge. lia.
    + apply Forall_forall. trivial.
Qed.

Lemma value_counts_keys_NoDup (values : list string) :
  NoDup (map fst (value_counts values)).
Proof.
  apply (Permutation_NoDup
           (Permutation_sym (Permutation_map fst (value_counts_perm values)))).
  rewrite map_map. simpl. rewrite map_id. apply first_seen_NoDup.
Qed.

(** X19: the chart of listings per city shows at most 15 cities, each once, with
    the number of rows of the view in that city, the largest count first;
    a city of the view that is left out has no more rows than any city
    shown. *)
Theorem top_cities_spec (view : DataFrame) :
  (List.length (top_cities view) <= 15)%nat
  /\ NoDup (map fst (top_cities view))
  /\ StronglySorted (fun a b : string * nat => (snd b <= snd a)%nat)
       (top_cities view)
  /\ (forall c n, In (c, n) (top_cities view) ->
                  In c (text_column City view)
                  /\ n = count_of c (text_column City view) /\ (1 <= n)%nat)
  /\ (forall c, In c (text_column City view) ->
                ~ In c (map fst (top_cities view)) ->
                forall c' n', In (c', n') (top_cities view) ->
                              (count_of c (text_column City view) <= n')%nat).
Proof.
  unfold top_cities.
  set (col := text_column City view). set (vc := value_counts col).
  pose proof (value_counts_sorted col) as Hs. fold vc in Hs.
  destruct (head_ranks_first _ 15 vc Hs) as [Hhead Hcross].
  assert (Hsplit : head 15 vc ++ skipn 15 vc = vc) by apply firstn_skipn.
  split; [|split; [|split; [|split]]].
  - unfold head. rewrite length_firstn. lia.
  - pose proof (value_counts_keys_NoDup col) as Hnd. fold vc in Hnd.
    rewrite <- Hsplit, map_app in Hnd.
    exact (NoDup_app_remove_r _ _ Hnd).
  - exact Hhead.
  - intros c n H.
    assert (Hin : In (c, n) vc) by (rewrite <- Hsplit; apply in_or_app; auto).
    apply value_counts_In in Hin. destruct Hin as [Hc ->].
    split; [exact Hc|]. split; [reflexivity|]. apply count_of_pos, Hc.
  - intros c Hc Hout c' n' Hin'.
    assert (Hin : In (c, count_of c col) vc) by (apply value_counts_In; auto).
    rewrite <- Hsplit in Hin. apply in_app_or in Hin.
    destruct Hin as [Hin|Hin].
    + exfalso. apply Hout. apply in_map_iff. exists (c, count_of c col). auto.
    + exact (Hcross _ _ Hin' Hin).
Qed.

(** ** More on the correlation matrix *)

Lemma welford_step_skip (w : welford) (v : float * float) :
  both_finite v = false -> welford_step w v = w.
Proof.
  destruct v as [vx vy]. unfold both_finite, welford_step. simpl.
  intros ->. reflexivity.
Qed.

Lemma welford_fold_finite (pairs : list (float * float)) (w : welford) :
  fold_left welford_step pairs w
  = fold_left welford_step (filter both_finite pairs) w.
Proof.
  revert w. induction pairs as [|v pairs IH]; intros w; [reflexivity|].
  simpl. destruct (both_finite v) eqn:E; simpl.
  - apply IH.
  - rewrite (welford_step_skip w v E). apply IH.
Qed.

Lemma combine_columns (ca cb : num_col) (view : DataFrame) :
  combine (column ca view) (column cb view)
  = map (fun row => (get ca row, get cb row)) view.
Proof.
  unfold column. induction view as [|row view IH]; [reflexivity|].
  simpl. rewrite IH. reflexivity.
Qed.

Lemma nancorr_pair_finite_rows (ca cb : num_col) (view : DataFrame) :
  nancorr_pair (column ca view) (column cb view)
  = nancorr_pair (column ca (finite_rows ca cb view))
      (column cb (finite_rows ca cb view)).
Proof.
  unfold nancorr_pair. rewrite !combine_columns.
  rewrite (welford_fold_finite (map _ view)).
  rewrite (welford_fold_finite (map _ (finite_rows ca cb view))).
  unfold finite_rows.
  rewrite <- !(map_filter_swap (fun row : Listing => (get ca row, get cb row))
                 both_finite).
  rewrite filter_idem. reflexivity.
Qed.

Lemma finite_rows_sym (ca cb : num_col) (view : DataFrame) :
  finite_rows ca cb view = finite_rows cb ca view.
Proof.
  unfold finite_rows, both_finite. apply filter_ext. intros row.
  simpl. apply andb_comm.
Qed.

(** X20: rows are left out of the correlations pair by pair: the coefficient of
    two columns is the one computed on the rows in which both columns hold
    finite numbers, whatever the other columns hold in those rows; when no
    row has both, the coefficient is NaN. *)
Theorem corr_pairwise_deletion (view : DataFrame) (a b : nat)
  (ca cb : num_col) :
  nth_error corr_cols a = Some ca -> nth_error corr_cols b = Some cb ->
  nth b (nth a (corr view) []) PrimFloat.nan
  = nth b (nth a (corr (finite_rows ca cb view)) []) PrimFloat.nan
  /\ (finite_rows ca cb view = [] ->
      isna (nth b (nth a (corr view) []) PrimFloat.nan) = true).
Proof.
  intros Ha Hb.
  assert (E : nth b (nth a (corr view) []) PrimFloat.nan
              = nth b (nth a (corr (finite_rows ca cb view)) [])
                  PrimFloat.nan).
  { rewrite !(corr_entry _ a b ca cb Ha Hb).
    destruct (b <=? a)%nat.
    - apply nancorr_pair_finite_rows.
    - rewrite (finite_rows_sym ca cb). apply nancorr_pair_finite_rows. }
  split; [exact E|].
  intros Hnone. rewrite E, Hnone, (corr_entry _ a b ca cb Ha Hb).
  destruct (b <=? a)%nat; reflexivity.
Qed.

Lemma corr_pairwise_deletion_witness :
  nth_error corr_cols 1 = Some Area /\ nth_error corr_cols 2 = Some Bedrooms
  /\ finite_rows Area Bedrooms [listing_A; listing_no_bedrooms; listing_B]
     = sample_view
  /\ nth 2 (nth 1 (corr [listing_A; listing_no_bedrooms; listing_B]) [])
       PrimFloat.nan
     = nth 2 (nth 1 (corr sample_view) []) PrimFloat.nan.
Proof.
  split; [reflexivity|]. split; [reflexivity|]. split; [reflexivity|].
  exact (proj1 (corr_pairwise_deletion
                  [listing_A; listing_no_bedrooms; listing_B] 1 2
                  Area Bedrooms eq_refl eq_refl)).
Defined.

(** ** More on the mean and the median *)

(** X21: a column in which every cell is missing has no mean and no median,
    also when the view is not empty. *)
Theorem mean_median_all_missing (view : DataFrame) (field : num_col) :
  (forall l, In l view -> isna (get field l) = true) ->
  mean view field = PrimFloat.nan /\ median view field = PrimFloat.nan.
Proof.
  intros H.
  assert (Hall : Forall (fun x => isna x = true) (column field view)).
  { apply Forall_forall. intros x Hx. apply in_map_iff in Hx.
    destruct Hx as [l [<- Hl]]. apply H, Hl. }
  unfold mean, median. split.
  - apply nanmean_all_na, Hall.
  - apply nanmedian_all_na, Hall.
Qed.

Lemma mean_median_all_missing_witness :
  mean [listing_no_level; listing_no_bedrooms] Level = PrimFloat.nan
  /\ median [listing_no_level; listing_no_bedrooms] Level = PrimFloat.nan.
Proof.
  apply (mean_median_all_missing [listing_no_level; listing_no_bedrooms] Level).
  intros l [<-|[<-|[]]]; reflexivity.
Defined.

Lemma nth_split_at {A : Type} (k : nat) (l : list A) (d : A) :
  (k < List.length l)%nat ->
  l = firstn k l ++ nth k l d :: skipn (S k) l.
Proof.
  revert l. induction k as [|k IH]; intros [|a l] H; simpl in *; try lia.
  - reflexivity.
  - f_equal. apply IH. lia.
Qed.

Lemma odd_half (n : nat) : Nat.odd n = true -> n = (2 * (n / 2) + 1)%nat.
Proof.
  intros H. pose proof (Nat.div_mod_eq n 2) as E.
  rewrite <- Nat.bit0_mod, Nat.bit0_odd, H in E. simpl Nat.b2n in E. exact E.
Qed.

(** X22: the median of an odd number of present values is one of them, with as
    many of the others at or below it as at or above it; missing cells
    play no part. *)
Theorem median_odd (view : DataFrame) (field : num_col) :
  Nat.odd (List.length (present (column field view))) = true ->
  exists lower upper,
    Permutation (lower ++ median view field :: upper)
      (present (column field view))
    /\ List.length lower = List.length upper
    /\ Forall (fun v => (v <=? median view field)%float = true) lower
    /\ Forall (fun v => (median view field <=? v)%float = true) upper.
Proof.
  unfold median, nanmedian, present.
  set (x := filter (fun v => negb (isna v)) (column field view)).
  set (n := List.length x). intros Hodd. rewrite Hodd.
  pose proof (odd_half n Hodd) as Hn.
  destruct (Nat.eqb_spec n 0) as [E|_]; [lia|].
  set (part := insertion_sort PrimFloat.ltb x).
  pose proof (insertion_sort_perm PrimFloat.ltb x) as Hperm. fold part in Hperm.
  assert (Hx : Forall (fun v => isna v = false) x).
  { apply Forall_forall. intros v Hv. apply filter_In in Hv.
    apply negb_true_iff, Hv. }
  assert (Hpart : Forall (fun v => isna v = false) part).
  { apply (Permutation_Forall (Permutation_sym Hperm)), Hx. }
  assert (Hs : StronglySorted (fun a b => (a <=? b)%float = true) part).
  { apply (StronglySorted_impl_in (fun a b => (b <? a)%float = false)).
    - rewrite Forall_forall in Hpart. intros a b Ha Hb H.
      apply F64.ltb_false_leb; auto.
    - apply (insertion_sort_sorted PrimFloat.ltb (fun v => isna v = false)).
      + intros a b _ _. apply F64.ltb_asym.
      + intros a b c. apply F64.ltb_false_trans.
      + exact Hx. }
  assert (Hlen : List.length part = n) by apply (Permutation_length Hperm).
  assert (Hk : (n / 2 < List.length part)%nat) by lia.
  pose proof (nth_split_at (n / 2) part PrimFloat.nan Hk) as Hsplit.
  set (m := nth (n / 2) part PrimFloat.nan) in *.
  exists (firstn (n / 2) part), (skipn (S (n / 2)) part).
  split; [rewrite <- Hsplit; exact Hperm|]. split.
  - rewrite length_firstn, length_skipn. lia.
  - rewrite Hsplit in Hs. split.
    + apply Forall_forall. intros v Hv.
      apply (StronglySorted_app_cross _ _ _ Hs v m Hv). left. reflexivity.
    + apply StronglySorted_app_r in Hs.
      inversion Hs as [|? ? _ Hm]; subst. exact Hm.
Qed.

Lemma median_odd_witness :
  Nat.odd (List.length
             (present (column Bedrooms
                         [listing_A; listing_no_bedrooms; listing_B;
                          listing_low]))) = true
  /\ exists lower upper,
       Permutation
         (lower
          ++ median [listing_A; listing_no_bedrooms; listing_B; listing_low]
               Bedrooms :: upper)
         (present (column Bedrooms
                     [listing_A; listing_no_bedrooms; listing_B;
                      listing_low]))
       /\ List.length lower = List.length upper.
Proof.
  assert (H : Nat.odd (List.length
                         (present (column Bedrooms
                                     [listing_A; listing_no_bedrooms;
                                      listing_B; listing_low]))) = true)
    by reflexivity.
  split; [exact H|].
  destruct (median_odd [listing_A; listing_no_bedrooms; listing_B;
                        listing_low] Bedrooms H)
    as (lower & upper & Hperm & Hlen & _).
  exists lower, upper. split; assumption.
Defined.
